(** * Terminal inline chat widget and 1DS web appender

    A shallow embedding of

    - [src/vs/workbench/contrib/terminalContrib/chat/browser/terminalChatWidget.ts]
      (classes [TerminalChatWidget] and [TerminalChatResponseEditor]), and
    - [src/vs/platform/telemetry/browser/1dsAppender.ts]
      (class [OneDataSystemWebAppender]).

    The widget code is imperative: its methods mutate the widget's own
    fields and call into collaborators (the inline chat widget, the terminal
    instance, the context key service, the model service, ...).  Every
    method is embedded as a function from the state before the call to the
    state after it; objects that are created, referenced and disposed (the
    response editors) live in a store and are referred to by address. *)

From Stdlib Require Import NArith ZArith Ascii String.
From Stdlib Require DecimalN.
From stdpp Require Import base option list gmap strings.

Local Open Scope N_scope.

(** ** JavaScript strings *)

(** A JavaScript string is a finite sequence of UTF-16 code units.  A code
    unit is kept as an [N]; all real code units are below [65536], and
    nothing below relies on that bound. *)
Abbreviation jsstring := (list N).

(** The code units of a literal that only uses ASCII characters. *)
Fixpoint js (s : string) : jsstring :=
  match s with
  | EmptyString => []
  | String a s' => N_of_ascii a :: js s'
  end.

(** [WhiteSpace] of ECMA-262 (sec. 12.2): TAB, VT, FF, SP, NBSP, ZWNBSP and
    the code points of category Zs, all of them in the basic plane. *)
Definition isWhiteSpace (c : N) : bool :=
  (c =? 0x0009) || (c =? 0x000B) || (c =? 0x000C) || (c =? 0x0020) ||
  (c =? 0x00A0) || (c =? 0xFEFF) || (c =? 0x1680) ||
  ((0x2000 <=? c) && (c <=? 0x200A)) ||
  (c =? 0x202F) || (c =? 0x205F) || (c =? 0x3000).

(** [LineTerminator] of ECMA-262 (sec. 12.3): LF, CR, LS, PS. *)
Definition isLineTerminator (c : N) : bool :=
  (c =? 0x000A) || (c =? 0x000D) || (c =? 0x2028) || (c =? 0x2029).

Definition isTrimmable (c : N) : bool := isWhiteSpace c || isLineTerminator c.

Fixpoint trimStart (s : jsstring) : jsstring :=
  match s with
  | [] => []
  | c :: s' => if isTrimmable c then trimStart s' else s
  end.

Definition trimEnd (s : jsstring) : jsstring := rev (trimStart (rev s)).

(** [String.prototype.trim]: leading and trailing white space and line
    terminators removed. *)
Definition trim (s : jsstring) : jsstring := trimEnd (trimStart s).

(** Truthiness of a value of type [string | undefined]: [undefined] and the
    empty string are falsy, every other string is truthy. *)
Definition truthy (v : option jsstring) : bool :=
  match v with
  | None => false
  | Some [] => false
  | Some (_ :: _) => true
  end.

(** [value ?? ''] *)
Definition orEmpty (v : option jsstring) : jsstring := default [] v.

(** [String(n)] for a non-negative integer [n]: its decimal digits. *)
Fixpoint digits (u : Decimal.uint) : jsstring :=
  match u with
  | Decimal.Nil => []
  | Decimal.D0 u' => 0x30 :: digits u'
  | Decimal.D1 u' => 0x31 :: digits u'
  | Decimal.D2 u' => 0x32 :: digits u'
  | Decimal.D3 u' => 0x33 :: digits u'
  | Decimal.D4 u' => 0x34 :: digits u'
  | Decimal.D5 u' => 0x35 :: digits u'
  | Decimal.D6 u' => 0x36 :: digits u'
  | Decimal.D7 u' => 0x37 :: digits u'
  | Decimal.D8 u' => 0x38 :: digits u'
  | Decimal.D9 u' => 0x39 :: digits u'
  end.

Definition numberToString (n : N) : jsstring := digits (N.to_uint n).

(** ** The language service and the shell-to-language table *)

(** [ILanguageService], of which the response editor only calls
    [isRegisteredLanguageId]. *)
Record ILanguageService := {
  isRegisteredLanguageId : jsstring -> bool
}.

(** [TerminalChatResponseEditor._getLanguageFromShell]: a [switch] on a
    [string | undefined], whose [case] labels are compared with [===]. *)
Definition _getLanguageFromShell (_languageService : ILanguageService)
    (shell : option jsstring) : jsstring :=
  if decide (shell = Some (js "fish")) then
    if isRegisteredLanguageId _languageService (js "fish")
    then js "fish" else js "shellscript"
  else if decide (shell = Some (js "zsh")) then
    if isRegisteredLanguageId _languageService (js "zsh")
    then js "zsh" else js "shellscript"
  else if decide (shell = Some (js "bash")) then
    if isRegisteredLanguageId _languageService (js "bash")
    then js "bash" else js "shellscript"
  else if decide (shell = Some (js "sh")) then js "shellscript"
  else if decide (shell = Some (js "pwsh")) then js "powershell"
  else js "plaintext".

(** ** Resources and the model service *)

(** [URI]: the five components of [vs/base/common/uri].  [URI.from] leaves
    the components it is not given empty. *)
Record URI := {
  scheme : jsstring;
  authority : jsstring;
  path : jsstring;
  query : jsstring;
  fragment : jsstring
}.

#[global] Instance URI_eq_dec : EqDecision URI.
Proof. solve_decision. Defined.

#[global] Instance URI_countable : Countable URI.
Proof.
  refine (inj_countable'
    (fun u => (scheme u, authority u, path u, query u, fragment u))
    (fun t => let '(s, a, p, q, f) := t in
              {| scheme := s; authority := a; path := p; query := q; fragment := f |})
    _).
  by intros [].
Defined.

(** [IModelService] together with the part of [ITextModel] the response
    editor touches.  Text models are objects owned by the service: [M] is the
    state of the service and of its models, [R] a reference to a model.
    [getModel] answers [null] as [None]; [createModel] takes its four
    arguments in the order of the call in the source. *)
Class IModelService (M R : Type) := {
  getModel : M -> URI -> option R;
  createModel : jsstring -> option jsstring -> URI -> bool -> M -> R * M;
  isDisposed : M -> R -> bool;
  getModelValue : M -> R -> jsstring;
  setLanguage : R -> jsstring -> M -> M
}.

Section GetTextModel.
Context {M R : Type} `{IModelService M R}.

(** [TerminalChatResponseEditor._getTextModel].  The function is [async]
    but awaits nothing: its body runs when it is called and the promise it
    returns is already settled with the value computed here. *)
Definition _getTextModel (resource : URI) (_modelService : M) : option R * M :=
  match getModel _modelService resource with
  | Some existing =>
      if negb (isDisposed _modelService existing)
      then (Some existing, _modelService)
      else let '(m, s) := createModel (fragment resource) None resource false _modelService
           in (Some m, s)
  | None =>
      let '(m, s) := createModel (fragment resource) None resource false _modelService
      in (Some m, s)
  end.
End GetTextModel.

(** Modelled from the spec: the model service behind [IModelService] is not
    part of the sources at hand.  The spec calls it the editor-model
    registry, in which a backing text buffer is resolved or created under a
    synthetic identifier.  A text buffer holds its text, the language it was
    given, and whether it was disposed; the registry maps a resource to the
    buffer created under it. *)
Record TextModel := {
  tm_uri : URI;
  tm_value : jsstring;
  tm_language : option jsstring;
  tm_isForSimpleWidget : bool;
  tm_disposed : bool
}.

Record ModelService := {
  ms_models : gmap nat TextModel;
  ms_registry : gmap URI nat
}.

Definition ms_getModel (s : ModelService) (resource : URI) : option nat :=
  ms_registry s !! resource.

Definition ms_createModel (value : jsstring) (languageSelection : option jsstring)
    (resource : URI) (isForSimpleWidget : bool) (s : ModelService) : nat * ModelService :=
  let m := fresh (dom (ms_models s)) in
  (m, {| ms_models :=
           <[m := {| tm_uri := resource; tm_value := value;
                     tm_language := languageSelection;
                     tm_isForSimpleWidget := isForSimpleWidget;
                     tm_disposed := false |}]> (ms_models s);
         ms_registry := <[resource := m]> (ms_registry s) |}).

Definition ms_isDisposed (s : ModelService) (m : nat) : bool :=
  match ms_models s !! m with
  | Some t => tm_disposed t
  | None => true
  end.

Definition ms_getValue (s : ModelService) (m : nat) : jsstring :=
  match ms_models s !! m with
  | Some t => tm_value t
  | None => []
  end.

(** [ITextModel.setValue(value)]: the text of the model is replaced. *)
Definition tm_setValue (value : jsstring) (t : TextModel) : TextModel :=
  {| tm_uri := tm_uri t; tm_value := value; tm_language := tm_language t;
     tm_isForSimpleWidget := tm_isForSimpleWidget t; tm_disposed := tm_disposed t |}.

Definition ms_setValue (m : nat) (value : jsstring) (s : ModelService) : ModelService :=
  {| ms_models := alter (tm_setValue value) m (ms_models s);
     ms_registry := ms_registry s |}.

Definition tm_setLanguage (languageId : jsstring) (t : TextModel) : TextModel :=
  {| tm_uri := tm_uri t; tm_value := tm_value t; tm_language := Some languageId;
     tm_isForSimpleWidget := tm_isForSimpleWidget t; tm_disposed := tm_disposed t |}.

Definition ms_setLanguage (m : nat) (languageId : jsstring) (s : ModelService) : ModelService :=
  {| ms_models := alter (tm_setLanguage languageId) m (ms_models s);
     ms_registry := ms_registry s |}.

#[global] Instance ModelService_impl : IModelService ModelService nat := {
  getModel := ms_getModel;
  createModel := ms_createModel;
  isDisposed := ms_isDisposed;
  getModelValue := ms_getValue;
  setLanguage := ms_setLanguage
}.

(** ** Collaborators of the widget *)

(** [Dimension] of [vs/base/browser/dom]. *)
Record Dimension := { width : N; height : N }.

(** [MarkdownString]: only its text is ever given. *)
Record MarkdownString := { md_value : jsstring }.

(** The argument of [InlineChatWidget.updateChatMessage]. *)
Record ChatMessage := {
  message : MarkdownString;
  requestId : jsstring;
  providerId : jsstring
}.

(** [IChatProgress]: a union discriminated by its [kind]. *)
Record IChatProgress := { kind : jsstring }.

(** Modelled from the spec: [InlineChatWidget] is not part of the sources
    at hand.  The spec describes it as the nested chat widget holding the
    chat input's text, a placeholder text, and chat message, progress and
    toolbar state.  Each property the panel assigns, and each [update...]
    method it calls, is a field holding the last value given. *)
Record InlineChatWidget := {
  placeholder : jsstring;
  info : jsstring;
  value : jsstring;
  chatMessage : option ChatMessage;
  followUps : option (list jsstring);
  progress : bool;
  toolbar : bool;
  dimension : option Dimension
}.

(** Modelled from the spec: [ITerminalInstance] is not part of the sources
    at hand.  The spec describes one outbound action, issuing a command
    string plus an execute flag to the terminal instance; the instance keeps
    the calls of [runCommand] it received, oldest first. *)
Record ITerminalInstance := {
  instanceId : N;
  ranCommands : list (jsstring * bool)
}.

(** Modelled from the spec: [TerminalContextKeys] and the context key
    service are not part of the sources at hand.  The spec has context keys
    as boolean flags published for the host application, written by the
    widget.  The three keys the two classes bind are [chatFocused],
    [chatVisible] and [chatResponseEditorFocused], each holding the value
    last [set]. *)
Record ContextKeys := {
  chatFocused : bool;
  chatVisible : bool;
  chatResponseEditorFocused : bool
}.

(** Which element of the page has the keyboard focus: a call of [focus()]
    on the chat input or on the terminal moves it there. *)
Inductive Focus := FocusElsewhere | FocusChatInput | FocusTerminal.

#[global] Instance Focus_eq_dec : EqDecision Focus.
Proof. solve_decision. Defined.

(** Children of the panel's container element: the inline chat widget's
    [domNode] and the [_editorContainer] of a response editor. *)
Inductive Node := InlineChatDomNode | EditorContainer (editor : nat).

#[global] Instance Node_eq_dec : EqDecision Node.
Proof. solve_decision. Defined.

(** An [HTMLElement] as far as the panel uses its container: the class list
    (an ordered set of tokens) and the child nodes. *)
Record HTMLElement := {
  classList : list jsstring;
  children : list Node
}.

Definition classList_add (c : jsstring) (l : list jsstring) : list jsstring :=
  if decide (c ∈ l) then l else l ++ [c].

Definition classList_remove (c : jsstring) (l : list jsstring) : list jsstring :=
  filter (fun c' => c' ≠ c) l.

(** Modelled from the spec: [CodeEditorWidget] is not part of the sources
    at hand.  The spec has the response text kept in a backing text buffer,
    resolved or created on construction and handed to the editing surface by
    a deferred continuation.  So the editor holds no text of its own: it
    records the text model it was given and whether it was disposed, it
    reads and writes the text of that model, and as long as it was given
    none it answers the empty text and drops what is written.  The surface
    has a fixed width and a height that derives from the content, so the
    layout is a function of the text and is not kept. *)
Record CodeEditorWidget := {
  ce_model : option nat;
  ce_disposed : bool
}.

(** [editor.getValue()] *)
Definition ce_getValue (s : ModelService) (e : CodeEditorWidget) : jsstring :=
  match ce_model e with
  | Some m => ms_getValue s m
  | None => []
  end.

(** [editor.setValue(v)] *)
Definition ce_setValue (v : jsstring) (e : CodeEditorWidget) (s : ModelService)
    : ModelService :=
  match ce_model e with
  | Some m => ms_setValue m v s
  | None => s
  end.

(** [editor.setModel(m)] *)
Definition ce_setModel (m : nat) (e : CodeEditorWidget) : CodeEditorWidget :=
  {| ce_model := Some m; ce_disposed := ce_disposed e |}.

Definition ce_dispose (e : CodeEditorWidget) : CodeEditorWidget :=
  {| ce_model := ce_model e; ce_disposed := true |}.

(** ** The response editor *)

(** The state of one [TerminalChatResponseEditor]: whether its
    [_editorContainer] is hidden ([display: none]), its [_editor], the value
    its [model] promise is settled with, and whether it was disposed. *)
Record TerminalChatResponseEditor := {
  re_hidden : bool;
  _editor : CodeEditorWidget;
  model : option nat;
  re_disposed : bool
}.

Module ResponseEditor.

Definition with_editor (f : CodeEditorWidget -> CodeEditorWidget)
    (r : TerminalChatResponseEditor) : TerminalChatResponseEditor :=
  {| re_hidden := re_hidden r; _editor := f (_editor r); model := model r;
     re_disposed := re_disposed r |}.

Definition with_hidden (b : bool) (r : TerminalChatResponseEditor)
    : TerminalChatResponseEditor :=
  {| re_hidden := b; _editor := _editor r; model := model r;
     re_disposed := re_disposed r |}.

(** [setValue(value)]: the text goes to the text model of the editor, which
    the model service holds. *)
Definition setValue (v : jsstring) (r : TerminalChatResponseEditor) (s : ModelService)
    : ModelService :=
  ce_setValue v (_editor r) s.

(** [getValue()] *)
Definition getValue (s : ModelService) (r : TerminalChatResponseEditor) : jsstring :=
  ce_getValue s (_editor r).

(** [hide()]: [dom.hide] on the editor container. *)
Definition hide : TerminalChatResponseEditor -> TerminalChatResponseEditor :=
  with_hidden true.

(** [show()]: [dom.show] on the editor container. *)
Definition show : TerminalChatResponseEditor -> TerminalChatResponseEditor :=
  with_hidden false.

(** [dispose()], inherited from [Disposable]: the registered disposables
    run, so the editor is disposed (removing the container from the page
    is done on the page, see [disposeResponseEditor]). *)
Definition dispose (r : TerminalChatResponseEditor) : TerminalChatResponseEditor :=
  {| re_hidden := re_hidden r; _editor := ce_dispose (_editor r); model := model r;
     re_disposed := true |}.

End ResponseEditor.

(** A job queued by [this.model.then(...)] in the constructor of the
    response editor: the editor it belongs to, the value the promise is
    settled with, and the [shellType] it closes over. *)
Record Job := {
  job_editor : nat;
  job_model : option nat;
  job_shellType : option jsstring
}.

(** ** The widget and the world around it *)

(** The fields of [TerminalChatWidget] ([_container], [_inlineChatWidget],
    [_responseEditor], [_instance] and the injected services), the store of
    the response editors created so far, the element owning the focus and
    the queue of promise jobs.  [_responseEditor] is a reference into
    [editors]; [undefined] is [None].  [_focusedContextKey] and
    [_visibleContextKey] are the first two keys of [_contextKeyService].
    [_chatAccessibilityService] keeps the calls of [acceptResponse] it
    received, oldest first; a request id, a [number] that is only passed on,
    is an integer. *)
Record World := {
  _container : HTMLElement;
  _inlineChatWidget : InlineChatWidget;
  _responseEditor : option nat;
  _instance : ITerminalInstance;
  _contextKeyService : ContextKeys;
  _chatAccessibilityService : list (jsstring * Z);
  _modelService : ModelService;
  _languageService : ILanguageService;
  editors : gmap nat TerminalChatResponseEditor;
  activeElement : Focus;
  jobs : list Job
}.

(** *** Assignments to one field of the world *)

Definition with_container (f : HTMLElement -> HTMLElement) (w : World) : World :=
  {| _container := f (_container w); _inlineChatWidget := _inlineChatWidget w;
     _responseEditor := _responseEditor w; _instance := _instance w;
     _contextKeyService := _contextKeyService w;
     _chatAccessibilityService := _chatAccessibilityService w;
     _modelService := _modelService w; _languageService := _languageService w;
     editors := editors w; activeElement := activeElement w; jobs := jobs w |}.

Definition with_inlineChatWidget (f : InlineChatWidget -> InlineChatWidget) (w : World) : World :=
  {| _container := _container w; _inlineChatWidget := f (_inlineChatWidget w);
     _responseEditor := _responseEditor w; _instance := _instance w;
     _contextKeyService := _contextKeyService w;
     _chatAccessibilityService := _chatAccessibilityService w;
     _modelService := _modelService w; _languageService := _languageService w;
     editors := editors w; activeElement := activeElement w; jobs := jobs w |}.

Definition with_responseEditor (r : option nat) (w : World) : World :=
  {| _container := _container w; _inlineChatWidget := _inlineChatWidget w;
     _responseEditor := r; _instance := _instance w;
     _contextKeyService := _contextKeyService w;
     _chatAccessibilityService := _chatAccessibilityService w;
     _modelService := _modelService w; _languageService := _languageService w;
     editors := editors w; activeElement := activeElement w; jobs := jobs w |}.

Definition with_instance (f : ITerminalInstance -> ITerminalInstance) (w : World) : World :=
  {| _container := _container w; _inlineChatWidget := _inlineChatWidget w;
     _responseEditor := _responseEditor w; _instance := f (_instance w);
     _contextKeyService := _contextKeyService w;
     _chatAccessibilityService := _chatAccessibilityService w;
     _modelService := _modelService w; _languageService := _languageService w;
     editors := editors w; activeElement := activeElement w; jobs := jobs w |}.

Definition with_contextKeyService (f : ContextKeys -> ContextKeys) (w : World) : World :=
  {| _container := _container w; _inlineChatWidget := _inlineChatWidget w;
     _responseEditor := _responseEditor w; _instance := _instance w;
     _contextKeyService := f (_contextKeyService w);
     _chatAccessibilityService := _chatAccessibilityService w;
     _modelService := _modelService w; _languageService := _languageService w;
     editors := editors w; activeElement := activeElement w; jobs := jobs w |}.

Definition with_chatAccessibilityService (l : list (jsstring * Z)) (w : World) : World :=
  {| _container := _container w; _inlineChatWidget := _inlineChatWidget w;
     _responseEditor := _responseEditor w; _instance := _instance w;
     _contextKeyService := _contextKeyService w;
     _chatAccessibilityService := l;
     _modelService := _modelService w; _languageService := _languageService w;
     editors := editors w; activeElement := activeElement w; jobs := jobs w |}.

Definition with_modelService (s : ModelService) (w : World) : World :=
  {| _container := _container w; _inlineChatWidget := _inlineChatWidget w;
     _responseEditor := _responseEditor w; _instance := _instance w;
     _contextKeyService := _contextKeyService w;
     _chatAccessibilityService := _chatAccessibilityService w;
     _modelService := s; _languageService := _languageService w;
     editors := editors w; activeElement := activeElement w; jobs := jobs w |}.

Definition with_editors (h : gmap nat TerminalChatResponseEditor) (w : World) : World :=
  {| _container := _container w; _inlineChatWidget := _inlineChatWidget w;
     _responseEditor := _responseEditor w; _instance := _instance w;
     _contextKeyService := _contextKeyService w;
     _chatAccessibilityService := _chatAccessibilityService w;
     _modelService := _modelService w; _languageService := _languageService w;
     editors := h; activeElement := activeElement w; jobs := jobs w |}.

Definition with_activeElement (a : Focus) (w : World) : World :=
  {| _container := _container w; _inlineChatWidget := _inlineChatWidget w;
     _responseEditor := _responseEditor w; _instance := _instance w;
     _contextKeyService := _contextKeyService w;
     _chatAccessibilityService := _chatAccessibilityService w;
     _modelService := _modelService w; _languageService := _languageService w;
     editors := editors w; activeElement := a; jobs := jobs w |}.

Definition with_jobs (l : list Job) (w : World) : World :=
  {| _container := _container w; _inlineChatWidget := _inlineChatWidget w;
     _responseEditor := _responseEditor w; _instance := _instance w;
     _contextKeyService := _contextKeyService w;
     _chatAccessibilityService := _chatAccessibilityService w;
     _modelService := _modelService w; _languageService := _languageService w;
     editors := editors w; activeElement := activeElement w; jobs := l |}.

(** Statements of a method body run one after the other. *)
Definition andThen (f g : World -> World) : World -> World := fun w => g (f w).
Infix ">>>" := andThen (at level 61, left associativity).

(** *** Calls into the collaborators *)

Module InlineChat.

Definition set_placeholder (v : jsstring) (i : InlineChatWidget) : InlineChatWidget :=
  {| placeholder := v; info := info i; value := value i; chatMessage := chatMessage i;
     followUps := followUps i; progress := progress i; toolbar := toolbar i;
     dimension := dimension i |}.

Definition updateInfo (v : jsstring) (i : InlineChatWidget) : InlineChatWidget :=
  {| placeholder := placeholder i; info := v; value := value i; chatMessage := chatMessage i;
     followUps := followUps i; progress := progress i; toolbar := toolbar i;
     dimension := dimension i |}.

Definition set_value (v : jsstring) (i : InlineChatWidget) : InlineChatWidget :=
  {| placeholder := placeholder i; info := info i; value := v; chatMessage := chatMessage i;
     followUps := followUps i; progress := progress i; toolbar := toolbar i;
     dimension := dimension i |}.

Definition updateChatMessage (m : option ChatMessage) (i : InlineChatWidget) : InlineChatWidget :=
  {| placeholder := placeholder i; info := info i; value := value i; chatMessage := m;
     followUps := followUps i; progress := progress i; toolbar := toolbar i;
     dimension := dimension i |}.

Definition updateFollowUps (f : option (list jsstring)) (i : InlineChatWidget) : InlineChatWidget :=
  {| placeholder := placeholder i; info := info i; value := value i; chatMessage := chatMessage i;
     followUps := f; progress := progress i; toolbar := toolbar i;
     dimension := dimension i |}.

Definition updateProgress (b : bool) (i : InlineChatWidget) : InlineChatWidget :=
  {| placeholder := placeholder i; info := info i; value := value i; chatMessage := chatMessage i;
     followUps := followUps i; progress := b; toolbar := toolbar i;
     dimension := dimension i |}.

Definition updateToolbar (b : bool) (i : InlineChatWidget) : InlineChatWidget :=
  {| placeholder := placeholder i; info := info i; value := value i; chatMessage := chatMessage i;
     followUps := followUps i; progress := progress i; toolbar := b;
     dimension := dimension i |}.

Definition layout (d : Dimension) (i : InlineChatWidget) : InlineChatWidget :=
  {| placeholder := placeholder i; info := info i; value := value i; chatMessage := chatMessage i;
     followUps := followUps i; progress := progress i; toolbar := toolbar i;
     dimension := Some d |}.

(** The widget as [createInstance] hands it over: nothing typed, nothing
    shown. *)
Definition fresh_widget : InlineChatWidget :=
  {| placeholder := []; info := []; value := []; chatMessage := None;
     followUps := None; progress := false; toolbar := false; dimension := None |}.

End InlineChat.

(** [localize(key, message)] with the default (English) bundle: the message
    itself. *)
Definition localize (key message : jsstring) : jsstring := message.

(** [this._instance.runCommand(command, shouldExecute)] *)
Definition instance_runCommand (command : jsstring) (shouldExecute : bool) : World -> World :=
  with_instance (fun i =>
    {| instanceId := instanceId i;
       ranCommands := ranCommands i ++ [(command, shouldExecute)] |}).

(** [this._instance.focus()] *)
Definition instance_focus : World -> World := with_activeElement FocusTerminal.

(** [this._inlineChatWidget.focus()] *)
Definition inlineChatWidget_focus : World -> World := with_activeElement FocusChatInput.

(** [this._chatAccessibilityService.acceptResponse(response, requestId)] *)
Definition acceptResponse (response : jsstring) (requestId : Z) (w : World) : World :=
  with_chatAccessibilityService (_chatAccessibilityService w ++ [(response, requestId)]) w.

(** [this._focusedContextKey.set(b)] *)
Definition focusedContextKey_set (b : bool) : World -> World :=
  with_contextKeyService (fun k =>
    {| chatFocused := b; chatVisible := chatVisible k;
       chatResponseEditorFocused := chatResponseEditorFocused k |}).

(** [this._visibleContextKey.set(b)] *)
Definition visibleContextKey_set (b : bool) : World -> World :=
  with_contextKeyService (fun k =>
    {| chatFocused := chatFocused k; chatVisible := b;
       chatResponseEditorFocused := chatResponseEditorFocused k |}).

(** [this._responseEditorFocusedContextKey.set(b)] *)
Definition responseEditorFocusedContextKey_set (b : bool) : World -> World :=
  with_contextKeyService (fun k =>
    {| chatFocused := chatFocused k; chatVisible := chatVisible k;
       chatResponseEditorFocused := b |}).

(** [this._container.classList.add(c)] and [.remove(c)] *)
Definition container_classList_add (c : jsstring) : World -> World :=
  with_container (fun e =>
    {| classList := classList_add c (classList e); children := children e |}).

Definition container_classList_remove (c : jsstring) : World -> World :=
  with_container (fun e =>
    {| classList := classList_remove c (classList e); children := children e |}).

(** [this._container.prepend(n)] and [n.remove()] *)
Definition container_prepend (n : Node) : World -> World :=
  with_container (fun e =>
    {| classList := classList e; children := n :: children e |}).

Definition node_remove (n : Node) : World -> World :=
  with_container (fun e =>
    {| classList := classList e; children := filter (fun n' => n' ≠ n) (children e) |}).

(** [this._responseEditor?.m(...)]: the method runs on the editor the field
    refers to, and nothing happens when the field is [undefined]. *)
Definition onResponseEditor
    (m : TerminalChatResponseEditor -> TerminalChatResponseEditor) (w : World) : World :=
  match _responseEditor w with
  | Some this => with_editors (alter m this (editors w)) w
  | None => w
  end.

(** [this._responseEditor?.dispose()]: of the disposables the constructor
    registered, the first removes the editor container from the page and the
    second disposes the editor. *)
Definition disposeResponseEditor (w : World) : World :=
  match _responseEditor w with
  | Some this =>
      (node_remove (EditorContainer this) >>>
       onResponseEditor ResponseEditor.dispose) w
  | None => w
  end.

(** [this._responseEditor.setValue(command)]: on the editor the field
    refers to, with the model service its text model lives in. *)
Definition responseEditor_setValue (command : jsstring) (w : World) : World :=
  match _responseEditor w with
  | Some this =>
      match editors w !! this with
      | Some r => with_modelService (ResponseEditor.setValue command r (_modelService w)) w
      | None => w
      end
  | None => w
  end.

(** [URI.from({ path, scheme, fragment })] *)
Definition URI_from (path scheme fragment : jsstring) : URI :=
  {| scheme := scheme; authority := []; path := path; query := []; fragment := fragment |}.

(** The constructor of [TerminalChatResponseEditor], called through
    [createInstance] with [this._container] and [this._instance] of the
    widget: a new object [this] is allocated; its container is prepended to
    the panel's; its editor is created empty; [_getTextModel] is called on
    the synthetic resource, and the callback given to [then] is queued.
    The result is the reference to the new object. *)
Definition newTerminalChatResponseEditor
    (initialCommandResponse : jsstring) (shellType : option jsstring)
    (w : World) : nat * World :=
  let this := fresh (dom (editors w)) in
  let resource :=
    URI_from (js "terminal-inline-chat-" ++ numberToString (instanceId (_instance w)))
             (js "terminal-inline-chat")
             initialCommandResponse in
  let '(m, s) := _getTextModel resource (_modelService w) in
  let object :=
    {| re_hidden := false;
       _editor := {| ce_model := None; ce_disposed := false |};
       model := m;
       re_disposed := false |} in
  (this,
   (container_prepend (EditorContainer this) >>>
    with_editors (<[this := object]> (editors w)) >>>
    with_modelService s >>>
    with_jobs (jobs w ++ [{| job_editor := this; job_model := m;
                             job_shellType := shellType |}])) w).

(** The callback of [this.model.then(model => ...)]: with a model, the
    editor is given the model and the model the language inferred from the
    shell type. *)
Definition modelResolved (j : Job) (w : World) : World :=
  match job_model j with
  | Some m =>
      let w1 :=
        with_editors
          (alter (ResponseEditor.with_editor (ce_setModel m)) (job_editor j) (editors w)) w in
      let languageId := _getLanguageFromShell (_languageService w1) (job_shellType j) in
      with_modelService (setLanguage m languageId (_modelService w1)) w1
  | None => w
  end.

(** One turn of the job queue. *)
Definition runJob (w : World) : World :=
  match jobs w with
  | [] => w
  | j :: rest => modelResolved j (with_jobs rest w)
  end.

(** The listeners the response editor registers on [onDidFocusEditorText]
    and [onDidBlurEditorText]; they are detached when it is disposed. *)
Definition didFocusEditorText (this : nat) (w : World) : World :=
  match editors w !! this with
  | Some r => if re_disposed r then w else responseEditorFocusedContextKey_set true w
  | None => w
  end.

Definition didBlurEditorText (this : nat) (w : World) : World :=
  match editors w !! this with
  | Some r => if re_disposed r then w else responseEditorFocusedContextKey_set false w
  | None => w
  end.

(** *** The methods of [TerminalChatWidget] *)

(** [_reset()] *)
Definition _reset : World -> World :=
  with_inlineChatWidget
    (InlineChat.set_placeholder
       (localize (js "default.placeholder") (js "Ask how to do something in the terminal"))) >>>
  with_inlineChatWidget
    (InlineChat.updateInfo
       (localize (js "welcome.1") (js "AI-generated commands may be incorrect"))).

(** The constructor: the two context keys are bound (not set), the
    container is created with its class and the inline chat widget as its
    child, and [_reset] is called.  The collaborators are the ones
    injected. *)
Definition newTerminalChatWidget (instance : ITerminalInstance) (keys : ContextKeys)
    (accessibility : list (jsstring * Z)) (models : ModelService)
    (languages : ILanguageService) (focus : Focus) : World :=
  _reset
    {| _container := {| classList := [js "terminal-inline-chat"];
                        children := [InlineChatDomNode] |};
       _inlineChatWidget := InlineChat.fresh_widget;
       _responseEditor := None;
       _instance := instance;
       _contextKeyService := keys;
       _chatAccessibilityService := accessibility;
       _modelService := models;
       _languageService := languages;
       editors := ∅;
       activeElement := focus;
       jobs := [] |}.

(** [renderTerminalCommand(command, requestId, shellType)].  The method is
    [async] and awaits nothing, so its body runs to its end when called. *)
Definition renderTerminalCommand (command : jsstring) (requestId : Z)
    (shellType : option jsstring) : World -> World :=
  acceptResponse command requestId >>>
  onResponseEditor ResponseEditor.show >>>
  (fun w =>
     match _responseEditor w with
     | None =>
         let '(this, w') := newTerminalChatResponseEditor command shellType w in
         with_responseEditor (Some this) w'
     | Some _ => w
     end) >>>
  responseEditor_setValue command.

(** [renderMessage(message, accessibilityRequestId, requestId)] *)
Definition renderMessage (message : jsstring) (accessibilityRequestId : Z)
    (requestId : jsstring) : World -> World :=
  onResponseEditor ResponseEditor.hide >>>
  with_inlineChatWidget
    (InlineChat.updateChatMessage
       (Some {| message := {| md_value := message |}; requestId := requestId;
                providerId := js "terminal" |})) >>>
  acceptResponse message accessibilityRequestId.

(** [reveal()] *)
Definition reveal : World -> World :=
  with_inlineChatWidget (InlineChat.layout {| width := 640; height := 150 |}) >>>
  container_classList_remove (js "hide") >>>
  focusedContextKey_set true >>>
  visibleContextKey_set true >>>
  inlineChatWidget_focus.

(** [hide()] *)
Definition hide : World -> World :=
  container_classList_add (js "hide") >>>
  _reset >>>
  disposeResponseEditor >>>
  with_responseEditor None >>>
  with_inlineChatWidget (InlineChat.updateChatMessage None) >>>
  with_inlineChatWidget (InlineChat.updateFollowUps None) >>>
  with_inlineChatWidget (InlineChat.updateProgress false) >>>
  with_inlineChatWidget (InlineChat.updateToolbar false) >>>
  focusedContextKey_set false >>>
  visibleContextKey_set false >>>
  instance_focus.

(** [focus()] *)
Definition focus : World -> World := inlineChatWidget_focus.

(** [hasFocus()] *)
Definition hasFocus (w : World) : bool :=
  bool_decide (activeElement w = FocusChatInput).

(** [input()] *)
Definition input (w : World) : jsstring := value (_inlineChatWidget w).

(** [setValue(value?)] *)
Definition setValue (value : option jsstring) : World -> World :=
  with_inlineChatWidget (InlineChat.set_value (orEmpty value)) >>>
  (fun w => if negb (truthy value) then onResponseEditor ResponseEditor.hide w else w).

(** [this._responseEditor?.getValue().trim()], a [string | undefined] *)
Definition responseEditorValue (w : World) : option jsstring :=
  this ← _responseEditor w;
  r ← editors w !! this;
  Some (trim (ResponseEditor.getValue (_modelService w) r)).

(** [acceptCommand(shouldExecute)] *)
Definition acceptCommand (shouldExecute : bool) (w : World) : World :=
  let value := responseEditorValue w in
  if negb (truthy value) then w
  else (instance_runCommand (orEmpty value) shouldExecute >>> hide) w.

(** [updateProgress(progress?)] *)
Definition updateProgress (progress : option IChatProgress) : World -> World :=
  with_inlineChatWidget
    (InlineChat.updateProgress
       (bool_decide (kind <$> progress = Some (js "content")) ||
        bool_decide (kind <$> progress = Some (js "markdownContent")))).

(** *** Calls and events as data *)

(** What can happen to a widget once constructed: a call of one of its
    public methods, one of the two editor events, or a turn of the job
    queue. *)
Inductive Op :=
  | RenderTerminalCommand (command : jsstring) (requestId : Z) (shellType : option jsstring)
  | RenderMessage (message : jsstring) (accessibilityRequestId : Z) (requestId : jsstring)
  | Reveal
  | Hide
  | FocusInput
  | SetValue (value : option jsstring)
  | AcceptCommand (shouldExecute : bool)
  | UpdateProgress (progress : option IChatProgress)
  | DidFocusEditorText (editor : nat)
  | DidBlurEditorText (editor : nat)
  | RunJob.

Definition step (o : Op) : World -> World :=
  match o with
  | RenderTerminalCommand c r s => renderTerminalCommand c r s
  | RenderMessage m a r => renderMessage m a r
  | Reveal => reveal
  | Hide => hide
  | FocusInput => focus
  | SetValue v => setValue v
  | AcceptCommand b => acceptCommand b
  | UpdateProgress p => updateProgress p
  | DidFocusEditorText e => didFocusEditorText e
  | DidBlurEditorText e => didBlurEditorText e
  | RunJob => runJob
  end.

Definition run (ops : list Op) (w : World) : World := foldl (fun w o => step o w) w ops.

(** The field [_responseEditor], when set, refers to a response editor that
    exists and was not disposed. *)
Definition wf_world (w : World) : Prop :=
  ∀ this, _responseEditor w = Some this →
    ∃ r, editors w !! this = Some r ∧ re_disposed r = false.

(** ** The 1DS web appender *)

Section OneDataSystemAppender.

Context {AppInsightsCore Any Error Base : Type}.

(** The base class [AbstractOneDataSystemAppender] of
    [vs/platform/telemetry/common/1dsAppender] is imported, not defined,
    by the file embedded here, and is a parameter: [Base] is the state of
    its instances, and its constructor takes the internal-telemetry flag,
    the event prefix, the default data ([null] is [None]) and the key or
    the client factory, and either throws or gives the instance. *)
Variable AbstractOneDataSystemAppender_new :
  bool -> jsstring -> option (gmap jsstring Any) ->
  jsstring + (unit -> AppInsightsCore) -> Error + Base.

(** [class OneDataSystemWebAppender extends AbstractOneDataSystemAppender]:
    the class body declares a constructor and nothing else, so an instance
    is the instance of the base class. *)
Record OneDataSystemWebAppender := { super : Base }.

(** The constructor: [super(isInternalTelemetry, eventPrefix, defaultData,
    iKeyOrClientFactory)]. *)
Definition OneDataSystemWebAppender_new
    (isInternalTelemetry : bool) (eventPrefix : jsstring)
    (defaultData : option (gmap jsstring Any))
    (iKeyOrClientFactory : jsstring + (unit -> AppInsightsCore))
    : Error + OneDataSystemWebAppender :=
  match AbstractOneDataSystemAppender_new
          isInternalTelemetry eventPrefix defaultData iKeyOrClientFactory with
  | inl e => inl e
  | inr this => inr {| super := this |}
  end.

(** A method [m] of the base class, called on an instance of the subclass:
    the class overrides nothing, so the method found is the base's. *)
Definition inherited {A B : Type} (m : A -> Base -> B * Base) (a : A)
    (this : OneDataSystemWebAppender) : B * OneDataSystemWebAppender :=
  let '(b, s) := m a (super this) in (b, {| super := s |}).

End OneDataSystemAppender.

Arguments OneDataSystemWebAppender Base : clear implicits.

(** ** The lookup table as the specification words it *)

(** The specification gives the table as fish to fish-or-shellscript, zsh to
    zsh-or-shellscript, bash to bash-or-shellscript, sh to shellscript and
    pwsh to powershell.  [spec_specificLanguage] is the specific language of
    each shell kind of that table, and [None] for a shell kind outside it.
    It follows the specification's words, not the code, and only serves to
    state what the specification says. *)
Definition spec_specificLanguage (shell : jsstring) : option jsstring :=
  if decide (shell = js "fish") then Some (js "fish")
  else if decide (shell = js "zsh") then Some (js "zsh")
  else if decide (shell = js "bash") then Some (js "bash")
  else if decide (shell = js "sh") then Some (js "shellscript")
  else if decide (shell = js "pwsh") then Some (js "powershell")
  else None.

(** ** Invariants and kinds of calls *)

(** What holds of a widget from its construction on: the field
    [_responseEditor], when set, refers to a response editor that exists and
    was not disposed; every other response editor created so far was
    disposed; and the children of the container are the container of that
    editor, when there is one, and then the node of the inline chat
    widget. *)
Definition inv_world (w : World) : Prop :=
  wf_world w ∧
  (∀ a r, editors w !! a = Some r → re_disposed r = false → _responseEditor w = Some a) ∧
  children (_container w) =
    match _responseEditor w with
    | Some this => [EditorContainer this; InlineChatDomNode]
    | None => [InlineChatDomNode]
    end.

(** The two context keys of the widget say the same, and they say whether
    the container is without the class hide. *)
Definition keys_agree (w : World) : Prop :=
  chatFocused (_contextKeyService w) = chatVisible (_contextKeyService w) ∧
  chatVisible (_contextKeyService w) =
    negb (bool_decide (js "hide" ∈ classList (_container w))).

(** The calls of [acceptCommand]. *)
Definition isAcceptCommand (o : Op) : bool :=
  match o with
  | AcceptCommand _ => true
  | _ => false
  end.

(** The turns of the job queue. *)
Definition isRunJob (o : Op) : bool :=
  match o with
  | RunJob => true
  | _ => false
  end.

(** The calls and events that neither unset the field [_responseEditor]
    nor write the text of the response editor: all but [hide],
    [acceptCommand] and [renderTerminalCommand]. *)
Definition keepsResponse (o : Op) : bool :=
  match o with
  | Hide | AcceptCommand _ | RenderTerminalCommand _ _ _ => false
  | _ => true
  end.

(** The calls and events among those that are not a turn of the job queue
    either. *)
Definition quiet (o : Op) : bool := keepsResponse o && negb (isRunJob o).

(** A command as [acceptCommand] forwards it: not empty, and neither its
    first nor its last code unit is white space or a line terminator. *)
Definition isClean (c : jsstring) : bool :=
  match c, rev c with
  | first :: _, last :: _ => negb (isTrimmable first) && negb (isTrimmable last)
  | _, _ => false
  end.

(** ** Sample states *)

Definition ms_empty : ModelService := {| ms_models := ∅; ms_registry := ∅ |}.

Definition noLanguages : ILanguageService := {| isRegisteredLanguageId := fun _ => false |}.

Definition onlyBash : ILanguageService :=
  {| isRegisteredLanguageId := fun l => bool_decide (l = js "bash") |}.

Definition bashAndPowershell : ILanguageService :=
  {| isRegisteredLanguageId := fun l =>
       bool_decide (l = js "bash") || bool_decide (l = js "powershell") |}.

(** A widget just constructed on terminal 1. *)
Definition w_new : World :=
  newTerminalChatWidget {| instanceId := 1; ranCommands := [] |}
    {| chatFocused := false; chatVisible := false; chatResponseEditorFocused := false |}
    [] ms_empty noLanguages FocusTerminal.

(** The widget revealed and showing the command [" ls -la "], once the
    job of its response editor has run. *)
Definition w_ls : World :=
  run [Reveal; RenderTerminalCommand (js " ls -la ") 7%Z (Some (js "bash")); RunJob] w_new.

(** The same with a response whose text has been replaced by blanks. *)
Definition w_blank : World := responseEditor_setValue (js "  ") w_ls.

(** The response editors of [w_ls] and of [w_blank]. *)
Definition r_ls : TerminalChatResponseEditor :=
  {| re_hidden := false;
     _editor := {| ce_model := Some 0%nat; ce_disposed := false |};
     model := Some 0%nat;
     re_disposed := false |}.

Definition r_blank : TerminalChatResponseEditor := r_ls.






Definition uri_ls : URI :=
  URI_from (js "terminal-inline-chat-1") (js "terminal-inline-chat") (js "ls").

(** The model service after a model was created for [uri_ls]. *)
Definition ms_ls : ModelService :=
  (ms_createModel (js "ls") None uri_ls false ms_empty).2.

(** * Properties *)

(** ** Strings *)

Example trim_ls : trim (js "  ls -la  ") = js "ls -la".
Proof. reflexivity. Qed.

Example trim_newline_tab : trim [0x0A; 0x09; 0x6C; 0x73; 0x0D; 0x0A] = js "ls".
Proof. reflexivity. Qed.

Example trim_line_separator : trim [0x2028; 0x6C; 0x73; 0xFEFF] = js "ls".
Proof. reflexivity. Qed.

Example numberToString_12 : numberToString 12 = js "12".
Proof. reflexivity. Qed.

Lemma trimStart_nil_iff (s : jsstring) :
  trimStart s = [] ↔ forallb isTrimmable s = true.
Proof.
  induction s as [|c s IH]; simpl; [done|].
  destruct (isTrimmable c); simpl; [exact IH|].
  split; discriminate.
Qed.

Lemma trimStart_idem (s : jsstring) : trimStart (trimStart s) = trimStart s.
Proof.
  induction s as [|c s IH]; simpl; [done|].
  destruct (isTrimmable c) eqn:E; [exact IH|].
  simpl. by rewrite E.
Qed.

(** What [trimStart] returns does not start with a character it removes. *)
Lemma trimStart_head (s : jsstring) (c : N) (s' : jsstring) :
  trimStart s = c :: s' → isTrimmable c = false.
Proof.
  induction s as [|d s IH]; simpl; [discriminate|].
  destruct (isTrimmable d) eqn:Ed; [exact IH|].
  intros [= -> _]. exact Ed.
Qed.

(** The trimmed text is empty exactly when the text is made of white space
    and line terminators only (the empty text included). *)
Lemma trim_nil_iff (s : jsstring) :
  trim s = [] ↔ forallb isTrimmable s = true.
Proof.
  unfold trim, trimEnd. split.
  - intros Hnil. apply trimStart_nil_iff.
    assert (Hr : trimStart (rev (trimStart s)) = []).
    { apply (f_equal (@rev N)) in Hnil. by rewrite rev_involutive in Hnil. }
    apply trimStart_nil_iff in Hr.
    rewrite forallb_forall in Hr.
    destruct (trimStart s) as [|c s'] eqn:E; [done|].
    assert (Hc : isTrimmable c = true).
    { apply Hr. apply in_rev. rewrite rev_involutive. by left. }
    apply trimStart_head in E. congruence.
  - intros Hall. apply trimStart_nil_iff in Hall. by rewrite Hall.
Qed.

(** ** The shell-to-language table *)

Example language_bash_registered :
  _getLanguageFromShell onlyBash (Some (js "bash")) = js "bash".
Proof. reflexivity. Qed.

Example language_fish_unregistered :
  _getLanguageFromShell onlyBash (Some (js "fish")) = js "shellscript".
Proof. reflexivity. Qed.

Example language_cmd : _getLanguageFromShell onlyBash (Some (js "cmd")) = js "plaintext".
Proof. reflexivity. Qed.

(** The [switch], one [case] at a time. *)
Lemma language_fish (l : ILanguageService) :
  _getLanguageFromShell l (Some (js "fish")) =
  if isRegisteredLanguageId l (js "fish") then js "fish" else js "shellscript".
Proof. reflexivity. Qed.

Lemma language_zsh (l : ILanguageService) :
  _getLanguageFromShell l (Some (js "zsh")) =
  if isRegisteredLanguageId l (js "zsh") then js "zsh" else js "shellscript".
Proof. reflexivity. Qed.

Lemma language_bash (l : ILanguageService) :
  _getLanguageFromShell l (Some (js "bash")) =
  if isRegisteredLanguageId l (js "bash") then js "bash" else js "shellscript".
Proof. reflexivity. Qed.

Lemma language_sh (l : ILanguageService) :
  _getLanguageFromShell l (Some (js "sh")) = js "shellscript".
Proof. reflexivity. Qed.

Lemma language_pwsh (l : ILanguageService) :
  _getLanguageFromShell l (Some (js "pwsh")) = js "powershell".
Proof. reflexivity. Qed.

Lemma language_default (l : ILanguageService) (shell : option jsstring) :
  shell ∉ [Some (js "fish"); Some (js "zsh"); Some (js "bash"); Some (js "sh");
           Some (js "pwsh")] →
  _getLanguageFromShell l shell = js "plaintext".
Proof.
  intros Hout. unfold _getLanguageFromShell.
  repeat case_decide; try reflexivity; subst shell; exfalso; apply Hout;
    repeat first [ apply list_elem_of_here | apply list_elem_of_further ].
Qed.

(** C2, as the specification has it, fails on the code: with no language
    registered at all, the shell kind pwsh is in the table, its specific
    language powershell is not registered, and the mapping still answers
    powershell, not shellscript. *)
Lemma pwsh_has_no_fallback :
  spec_specificLanguage (js "pwsh") = Some (js "powershell") ∧
  isRegisteredLanguageId noLanguages (js "powershell") = false ∧
  _getLanguageFromShell noLanguages (Some (js "pwsh")) = js "powershell" ∧
  _getLanguageFromShell noLanguages (Some (js "pwsh")) ≠ js "shellscript".
Proof. repeat split. discriminate. Qed.

(** C2, amended: for every shell kind of the lookup table other than pwsh
    whose specific language is not registered with the language service, the
    mapping answers the generic mode shellscript; for pwsh it answers
    powershell whatever the language service has registered. *)
Theorem language_fallback (l : ILanguageService) :
  (∀ shell lang : jsstring,
     spec_specificLanguage shell = Some lang →
     shell ≠ js "pwsh" →
     isRegisteredLanguageId l lang = false →
     _getLanguageFromShell l (Some shell) = js "shellscript") ∧
  _getLanguageFromShell l (Some (js "pwsh")) = js "powershell".
Proof.
  split; [|reflexivity].
  intros shell lang Hspec Hpwsh Hunreg. unfold spec_specificLanguage in Hspec.
  repeat case_decide; try discriminate; try contradiction; subst shell;
    match type of Hspec with Some ?x = Some _ =>
      assert (Hlang : lang = x) by congruence; subst lang; clear Hspec end.
  - by rewrite language_fish, Hunreg.
  - by rewrite language_zsh, Hunreg.
  - by rewrite language_bash, Hunreg.
  - apply language_sh.
Qed.

Lemma language_fallback_witness :
  (spec_specificLanguage (js "fish") = Some (js "fish") ∧
   js "fish" ≠ js "pwsh" ∧
   isRegisteredLanguageId onlyBash (js "fish") = false) ∧
  _getLanguageFromShell onlyBash (Some (js "fish")) = js "shellscript".
Proof.
  split; [repeat split; discriminate|].
  apply (proj1 (language_fallback onlyBash) (js "fish") (js "fish"));
    [reflexivity | discriminate | reflexivity].
Defined.

(** C3: the mapping is a function of the shell kind and of what the language
    service has registered, defined on every input, the absent one included:
    fish, zsh and bash map to themselves when registered and to shellscript
    otherwise, sh to shellscript, pwsh to powershell, and every other input
    to plaintext; two language services that agree on fish, zsh and bash
    give the same answers. *)
Theorem language_mapping (l : ILanguageService) :
  _getLanguageFromShell l (Some (js "fish")) =
    (if isRegisteredLanguageId l (js "fish") then js "fish" else js "shellscript") ∧
  _getLanguageFromShell l (Some (js "zsh")) =
    (if isRegisteredLanguageId l (js "zsh") then js "zsh" else js "shellscript") ∧
  _getLanguageFromShell l (Some (js "bash")) =
    (if isRegisteredLanguageId l (js "bash") then js "bash" else js "shellscript") ∧
  _getLanguageFromShell l (Some (js "sh")) = js "shellscript" ∧
  _getLanguageFromShell l (Some (js "pwsh")) = js "powershell" ∧
  _getLanguageFromShell l None = js "plaintext" ∧
  (∀ shell : jsstring,
     shell ∉ [js "fish"; js "zsh"; js "bash"; js "sh"; js "pwsh"] →
     _getLanguageFromShell l (Some shell) = js "plaintext") ∧
  (∀ (l' : ILanguageService) (shell : option jsstring),
     (∀ id, id ∈ [js "fish"; js "zsh"; js "bash"] →
        isRegisteredLanguageId l' id = isRegisteredLanguageId l id) →
     _getLanguageFromShell l' shell = _getLanguageFromShell l shell).
Proof.
  repeat split.
  - intros shell Hout. apply language_default. intros Hin. apply Hout.
    apply (list_elem_of_fmap_2 (default [])) in Hin. exact Hin.
  - intros l' shell Hagree. unfold _getLanguageFromShell.
    rewrite !Hagree; [reflexivity|..];
      repeat first [ apply list_elem_of_here | apply list_elem_of_further ].
Qed.

Lemma language_mapping_witness :
  ((js "cmd" ∉ [js "fish"; js "zsh"; js "bash"; js "sh"; js "pwsh"]) ∧
   _getLanguageFromShell onlyBash (Some (js "cmd")) = js "plaintext") ∧
  ((∀ id, id ∈ [js "fish"; js "zsh"; js "bash"] →
      isRegisteredLanguageId bashAndPowershell id = isRegisteredLanguageId onlyBash id) ∧
   _getLanguageFromShell bashAndPowershell (Some (js "bash")) =
   _getLanguageFromShell onlyBash (Some (js "bash"))).
Proof.
  pose proof (language_mapping onlyBash) as (_ & _ & _ & _ & _ & _ & Hother & Hagree).
  assert (Hcmd : js "cmd" ∉ [js "fish"; js "zsh"; js "bash"; js "sh"; js "pwsh"]).
  { intros Hin. repeat (apply elem_of_cons in Hin as [Hin|Hin]; [discriminate|]).
    by apply elem_of_nil in Hin. }
  assert (Hsame : ∀ id, id ∈ [js "fish"; js "zsh"; js "bash"] →
            isRegisteredLanguageId bashAndPowershell id = isRegisteredLanguageId onlyBash id).
  { intros id Hin.
    repeat (apply elem_of_cons in Hin as [->|Hin]; [reflexivity|]).
    by apply elem_of_nil in Hin. }
  split; [split; [exact Hcmd | exact (Hother (js "cmd") Hcmd)]|].
  split; [exact Hsame|]. exact (Hagree bashAndPowershell (Some (js "bash")) Hsame).
Defined.

(** ** Resolution of the text model *)

Section GetTextModelProperties.

Context {M R : Type} `{IModelService M R}.

Lemma getTextModel_existing (resource : URI) (s : M) (existing : R) :
  getModel s resource = Some existing →
  isDisposed s existing = false →
  _getTextModel resource s = (Some existing, s).
Proof. intros Hget Hlive. unfold _getTextModel. by rewrite Hget, Hlive. Qed.

Lemma getTextModel_created (resource : URI) (s : M) :
  getModel s resource = None ∨
  (∃ existing, getModel s resource = Some existing ∧ isDisposed s existing = true) →
  _getTextModel resource s =
  (Some (createModel (fragment resource) None resource false s).1,
   (createModel (fragment resource) None resource false s).2).
Proof.
  intros [Hnone | (existing & Hget & Hdisposed)]; unfold _getTextModel.
  - rewrite Hnone. by destruct (createModel _ _ _ _ _).
  - rewrite Hget, Hdisposed. simpl. by destruct (createModel _ _ _ _ _).
Qed.

(** Whatever the service, the function answers: a model is always given. *)
Lemma getTextModel_total (resource : URI) (s : M) :
  ∃ m s', _getTextModel resource s = (Some m, s').
Proof.
  unfold _getTextModel. destruct (getModel s resource) as [existing|].
  - destruct (isDisposed s existing); simpl; [|by eauto].
    destruct (createModel _ _ _ _ _); eauto.
  - destruct (createModel _ _ _ _ _); eauto.
Qed.

End GetTextModelProperties.

(** The registry keeps the contract of [createModel]: the model created
    holds the value given, and it is a model that did not exist before. *)
Lemma ms_createModel_value (v : jsstring) (l : option jsstring) (r : URI) (b : bool)
    (s : ModelService) :
  getModelValue (createModel v l r b s).2 (createModel v l r b s).1 = v.
Proof.
  cbn [getModelValue createModel ModelService_impl]. unfold ms_getValue, ms_createModel.
  cbn [fst snd ms_models]. by rewrite lookup_insert_eq.
Qed.

Lemma ms_createModel_new (v : jsstring) (l : option jsstring) (r : URI) (b : bool)
    (s : ModelService) :
  ms_models s !! (ms_createModel v l r b s).1 = None.
Proof. unfold ms_createModel. cbn [fst]. apply not_elem_of_dom, is_fresh. Qed.

Lemma ms_createModel_registered (v : jsstring) (l : option jsstring) (r : URI) (b : bool)
    (s : ModelService) :
  ms_getModel (ms_createModel v l r b s).2 r = Some (ms_createModel v l r b s).1 ∧
  ms_isDisposed (ms_createModel v l r b s).2 (ms_createModel v l r b s).1 = false.
Proof.
  unfold ms_getModel, ms_isDisposed, ms_createModel. cbn [fst snd ms_models ms_registry].
  by rewrite !lookup_insert_eq.
Qed.

(** C7: for every resource, [_getTextModel] answers the model the service
    has under that resource when there is one and it is not disposed; when
    there is none, or the one there is disposed, it answers the model that
    [createModel] makes from the fragment of the resource, and the content
    of that model is the fragment, the initial command, for every service
    whose [createModel] gives the model the value it is called with. *)
Theorem getTextModel_resolves_or_creates {M R : Type} `{IModelService M R}
    (created_value : ∀ v l r b s,
       getModelValue (createModel v l r b s).2 (createModel v l r b s).1 = v)
    (resource : URI) (s : M) :
  (∀ existing,
     getModel s resource = Some existing →
     isDisposed s existing = false →
     _getTextModel resource s = (Some existing, s)) ∧
  (getModel s resource = None ∨
   (∃ existing, getModel s resource = Some existing ∧ isDisposed s existing = true) →
   ∃ m s',
     createModel (fragment resource) None resource false s = (m, s') ∧
     _getTextModel resource s = (Some m, s') ∧
     getModelValue s' m = fragment resource).
Proof.
  split.
  - intros existing. apply getTextModel_existing.
  - intros Hmiss. apply getTextModel_created in Hmiss.
    pose proof (created_value (fragment resource) None resource false s) as Hval.
    destruct (createModel (fragment resource) None resource false s) as [m s'] eqn:E.
    exists m, s'. auto.
Qed.

Lemma getTextModel_resolves_or_creates_witness :
  (ms_getModel ms_empty uri_ls = None ∧
   ∃ m s',
     ms_createModel (js "ls") None uri_ls false ms_empty = (m, s') ∧
     _getTextModel uri_ls ms_empty = (Some m, s') ∧
     ms_getValue s' m = js "ls") ∧
  (ms_getModel ms_ls uri_ls = Some 0%nat ∧
   ms_isDisposed ms_ls 0%nat = false ∧
   _getTextModel uri_ls ms_ls = (Some 0%nat, ms_ls)).
Proof.
  assert (Hnone : ms_getModel ms_empty uri_ls = None) by reflexivity.
  assert (Hsome : ms_getModel ms_ls uri_ls = Some 0%nat) by (vm_compute; reflexivity).
  assert (Hlive : ms_isDisposed ms_ls 0%nat = false) by (vm_compute; reflexivity).
  split.
  - split; [exact Hnone|].
    exact (proj2 (getTextModel_resolves_or_creates ms_createModel_value uri_ls ms_empty)
             (or_introl Hnone)).
  - split; [exact Hsome|]. split; [exact Hlive|].
    exact (proj1 (getTextModel_resolves_or_creates ms_createModel_value uri_ls ms_ls)
             0%nat Hsome Hlive).
Defined.

(** ** The 1DS web appender *)

(** C8: constructing a [OneDataSystemWebAppender] is constructing the base
    appender with the same four arguments in the same order: it throws when
    and what the base constructor throws, and otherwise gives the base's
    instance; an instance has no state beyond the base's ([super] has
    [Build_OneDataSystemWebAppender] as its inverse on both sides), and a
    method called on it is the base's method. *)
Theorem OneDataSystemWebAppender_is_base
    {AppInsightsCore Any Error Base : Type}
    (base_new : bool -> jsstring -> option (gmap jsstring Any) ->
                jsstring + (unit -> AppInsightsCore) -> Error + Base) :
  (∀ isInternalTelemetry eventPrefix defaultData iKeyOrClientFactory,
     sum_map id super
       (OneDataSystemWebAppender_new base_new
          isInternalTelemetry eventPrefix defaultData iKeyOrClientFactory) =
     base_new isInternalTelemetry eventPrefix defaultData iKeyOrClientFactory) ∧
  (∀ this : OneDataSystemWebAppender Base, {| super := super this |} = this) ∧
  (∀ base : Base, super {| super := base |} = base) ∧
  (∀ (A B : Type) (m : A -> Base -> B * Base) (a : A) (this : OneDataSystemWebAppender Base),
     (inherited m a this).1 = (m a (super this)).1 ∧
     super (inherited m a this).2 = (m a (super this)).2).
Proof.
  repeat split.
  - intros a b c d. unfold OneDataSystemWebAppender_new.
    by destruct (base_new a b c d).
  - by intros [].
  - unfold inherited. by destruct (m a (super this)).
  - unfold inherited. by destruct (m a (super this)).
Qed.

(** ** The widget: what a call leaves alone *)

(** Reading a field of a world after assignments to fields. *)
Ltac world_simpl :=
  cbn [classList children
       _container _inlineChatWidget _responseEditor _instance _contextKeyService
       _chatAccessibilityService _modelService _languageService editors
       activeElement jobs
       with_container with_inlineChatWidget with_responseEditor with_instance
       with_contextKeyService with_chatAccessibilityService with_modelService
       with_editors with_activeElement with_jobs
       acceptResponse instance_runCommand instance_focus inlineChatWidget_focus
       focusedContextKey_set visibleContextKey_set responseEditorFocusedContextKey_set
       container_classList_add container_classList_remove container_prepend
       node_remove andThen] in *.


Lemma onResponseEditor_absent (m : TerminalChatResponseEditor -> TerminalChatResponseEditor)
    (w : World) :
  _responseEditor w = None → onResponseEditor m w = w.
Proof. intros Hnone. unfold onResponseEditor. by rewrite Hnone. Qed.

Lemma onResponseEditor_present (m : TerminalChatResponseEditor -> TerminalChatResponseEditor)
    (w : World) (this : nat) :
  _responseEditor w = Some this →
  onResponseEditor m w = with_editors (alter m this (editors w)) w.
Proof. intros Hsome. unfold onResponseEditor. by rewrite Hsome. Qed.

(** Allocation gives an address that was never used. *)
Lemma fresh_editor_unused (w : World) : editors w !! fresh (dom (editors w)) = None.
Proof. apply not_elem_of_dom, is_fresh. Qed.

Lemma newTerminalChatResponseEditor_this (c : jsstring) (s : option jsstring) (w : World) :
  (newTerminalChatResponseEditor c s w).1 = fresh (dom (editors w)).
Proof.
  unfold newTerminalChatResponseEditor.
  by destruct (_getTextModel _ (_modelService w)).
Qed.

Lemma newTerminalChatResponseEditor_editors (c : jsstring) (s : option jsstring) (w : World) :
  ∃ m, editors (newTerminalChatResponseEditor c s w).2 =
       <[fresh (dom (editors w)) :=
           {| re_hidden := false;
              _editor := {| ce_model := None; ce_disposed := false |};
              model := m; re_disposed := false |}]> (editors w).
Proof.
  unfold newTerminalChatResponseEditor.
  destruct (_getTextModel _ (_modelService w)) as [m ms]. by exists m.
Qed.

Lemma newTerminalChatResponseEditor_field (c : jsstring) (s : option jsstring) (w : World) :
  _responseEditor (newTerminalChatResponseEditor c s w).2 = _responseEditor w.
Proof.
  unfold newTerminalChatResponseEditor.
  by destruct (_getTextModel _ (_modelService w)).
Qed.

(** [this._responseEditor.setValue(command)] touches the model service and
    nothing else. *)
Lemma responseEditor_setValue_eq (c : jsstring) (w : World) :
  responseEditor_setValue c w =
  with_modelService
    (match _responseEditor w with
     | Some this =>
         match editors w !! this with
         | Some r => ResponseEditor.setValue c r (_modelService w)
         | None => _modelService w
         end
     | None => _modelService w
     end) w.
Proof.
  unfold responseEditor_setValue.
  destruct (_responseEditor w) as [this|]; [destruct (editors w !! this)|];
    try reflexivity; by destruct w.
Qed.

(** [renderTerminalCommand] when the field is set: the editor is shown,
    where it is, and the command goes to its text model; nothing is
    created. *)
Lemma renderTerminalCommand_present (c : jsstring) (q : Z) (s : option jsstring)
    (w : World) (this : nat) :
  _responseEditor w = Some this →
  renderTerminalCommand c q s w =
  with_modelService
    (match editors w !! this with
     | Some r => ResponseEditor.setValue c r (_modelService w)
     | None => _modelService w
     end)
    (with_editors (alter ResponseEditor.show this (editors w)) (acceptResponse c q w)).
Proof.
  intros Hsome. unfold renderTerminalCommand, andThen.
  rewrite (onResponseEditor_present _ (acceptResponse c q w) this) by exact Hsome.
  world_simpl. rewrite Hsome. rewrite responseEditor_setValue_eq. world_simpl.
  rewrite Hsome, lookup_alter_eq. by destruct (editors w !! this).
Qed.

(** [renderTerminalCommand] when the field is not set: an editor is
    created at an unused address, without a text model yet. *)
Lemma renderTerminalCommand_absent (c : jsstring) (q : Z) (s : option jsstring) (w : World) :
  _responseEditor w = None →
  let this := fresh (dom (editors w)) in
  _responseEditor (renderTerminalCommand c q s w) = Some this ∧
  ∃ m, editors (renderTerminalCommand c q s w) =
       <[this := {| re_hidden := false;
                    _editor := {| ce_model := None; ce_disposed := false |};
                    model := m; re_disposed := false |}]> (editors w).
Proof.
  intros Hnone this. unfold renderTerminalCommand, andThen.
  rewrite (onResponseEditor_absent _ (acceptResponse c q w)) by exact Hnone.
  world_simpl. rewrite Hnone.
  unfold newTerminalChatResponseEditor. world_simpl.
  destruct (_getTextModel _ (_modelService w)) as [m ms].
  rewrite responseEditor_setValue_eq. world_simpl. split; [reflexivity|].
  by exists m.
Qed.

(** [this._responseEditor?.dispose()] touches the page and the store of
    editors, and nothing else. *)
Lemma disposeResponseEditor_eq (w : World) :
  disposeResponseEditor w =
  match _responseEditor w with
  | Some this =>
      with_editors (alter ResponseEditor.dispose this (editors w))
        (node_remove (EditorContainer this) w)
  | None => w
  end.
Proof.
  unfold disposeResponseEditor. destruct (_responseEditor w) as [this|] eqn:E; [|done].
  unfold andThen, onResponseEditor. world_simpl. by rewrite E.
Qed.

(** The state [hide] leaves, field by field. *)
Lemma hide_eq (w : World) :
  hide w =
  {| _container :=
       {| classList := classList_add (js "hide") (classList (_container w));
          children :=
            match _responseEditor w with
            | Some this => filter (fun n => n ≠ EditorContainer this) (children (_container w))
            | None => children (_container w)
            end |};
     _inlineChatWidget :=
       {| placeholder := js "Ask how to do something in the terminal";
          info := js "AI-generated commands may be incorrect";
          value := value (_inlineChatWidget w);
          chatMessage := None;
          followUps := None;
          progress := false;
          toolbar := false;
          dimension := dimension (_inlineChatWidget w) |};
     _responseEditor := None;
     _instance := _instance w;
     _contextKeyService :=
       {| chatFocused := false;
          chatVisible := false;
          chatResponseEditorFocused := chatResponseEditorFocused (_contextKeyService w) |};
     _chatAccessibilityService := _chatAccessibilityService w;
     _modelService := _modelService w;
     _languageService := _languageService w;
     editors :=
       match _responseEditor w with
       | Some this => alter ResponseEditor.dispose this (editors w)
       | None => editors w
       end;
     activeElement := FocusTerminal;
     jobs := jobs w |}.
Proof.
  unfold hide, andThen. rewrite disposeResponseEditor_eq. unfold _reset, andThen.
  world_simpl. by destruct (_responseEditor w).
Qed.

Lemma classList_add_elem (c : jsstring) (l : list jsstring) : c ∈ classList_add c l.
Proof.
  unfold classList_add. case_decide; [done|].
  apply elem_of_app. right. apply list_elem_of_here.
Qed.

Lemma classList_remove_elem (c : jsstring) (l : list jsstring) : c ∉ classList_remove c l.
Proof. unfold classList_remove. rewrite list_elem_of_filter. by intros [? _]. Qed.

(** ** The invariant of the field [_responseEditor] *)

Lemma wf_new (instance : ITerminalInstance) (keys : ContextKeys)
    (accessibility : list (jsstring * Z)) (models : ModelService)
    (languages : ILanguageService) (focus : Focus) :
  wf_world (newTerminalChatWidget instance keys accessibility models languages focus).
Proof. intros this. discriminate. Qed.

Lemma wf_unset (w : World) : _responseEditor w = None → wf_world w.
Proof. intros Hnone this. by rewrite Hnone. Qed.


Lemma wf_same (w w' : World) :
  _responseEditor w' = _responseEditor w → editors w' = editors w →
  wf_world w → wf_world w'.
Proof. intros Hf He Hwf this. rewrite Hf, He. apply Hwf. Qed.

Lemma wf_renderTerminalCommand (c : jsstring) (q : Z) (s : option jsstring) (w : World) :
  wf_world w → wf_world (renderTerminalCommand c q s w).
Proof.
  intros Hwf. destruct (_responseEditor w) as [this|] eqn:E.
  - rewrite (renderTerminalCommand_present c q s w this E).
    intros this'. world_simpl. rewrite E. intros [= <-].
    destruct (Hwf this E) as (r & Hr & Hlive).
    exists (ResponseEditor.show r).
    by rewrite lookup_alter_eq, Hr.
  - destruct (renderTerminalCommand_absent c q s w E) as [Hf [m He]].
    intros this'. rewrite Hf, He. intros [= <-].
    eexists. by rewrite lookup_insert_eq.
Qed.






(** ** Accepting the command *)

Lemma responseEditorValue_present (w : World) (this : nat) (r : TerminalChatResponseEditor) :
  _responseEditor w = Some this →
  editors w !! this = Some r →
  responseEditorValue w = Some (trim (ResponseEditor.getValue (_modelService w) r)).
Proof. intros Hf Hr. unfold responseEditorValue. rewrite Hf. cbn. by rewrite Hr. Qed.

Lemma responseEditorValue_absent (w : World) :
  _responseEditor w = None → responseEditorValue w = None.
Proof. intros Hf. unfold responseEditorValue. by rewrite Hf. Qed.

Lemma truthy_Some (s : jsstring) : truthy (Some s) = true ↔ s ≠ [].
Proof. destruct s; cbn; split; done. Qed.

(** C1: with a response editor whose text is [t], [acceptCommand] trims
    [t]; when the trimmed text is not empty, [runCommand] is called on the
    terminal with exactly the trimmed text and [shouldExecute], and then
    [hide] runs, so the call is recorded last by the terminal and the panel
    is hidden; when the trimmed text is empty the state is left as it is. *)
Theorem acceptCommand_forwards_trimmed (w : World) (this : nat)
    (r : TerminalChatResponseEditor) (t : jsstring) (shouldExecute : bool) :
  _responseEditor w = Some this →
  editors w !! this = Some r →
  ResponseEditor.getValue (_modelService w) r = t →
  (trim t ≠ [] →
     acceptCommand shouldExecute w =
       hide (instance_runCommand (trim t) shouldExecute w) ∧
     ranCommands (_instance (acceptCommand shouldExecute w)) =
       ranCommands (_instance w) ++ [(trim t, shouldExecute)] ∧
     js "hide" ∈ classList (_container (acceptCommand shouldExecute w)) ∧
     chatVisible (_contextKeyService (acceptCommand shouldExecute w)) = false ∧
     _responseEditor (acceptCommand shouldExecute w) = None) ∧
  (trim t = [] → acceptCommand shouldExecute w = w).
Proof.
  intros Hf Hr <-. split.
  - intros Hne. apply truthy_Some in Hne.
    assert (E : acceptCommand shouldExecute w =
                hide (instance_runCommand
                        (trim (ResponseEditor.getValue (_modelService w) r))
                        shouldExecute w)).
    { unfold acceptCommand. rewrite (responseEditorValue_present w this r Hf Hr), Hne.
      reflexivity. }
    rewrite E, hide_eq. world_simpl.
    repeat split; try reflexivity. apply classList_add_elem.
  - intros Hnil. unfold acceptCommand.
    by rewrite (responseEditorValue_present w this r Hf Hr), Hnil.
Qed.

Lemma acceptCommand_forwards_trimmed_witness :
  (_responseEditor w_ls = Some 0%nat ∧
   editors w_ls !! 0%nat = Some r_ls ∧
   ResponseEditor.getValue (_modelService w_ls) r_ls = js " ls -la " ∧
   trim (js " ls -la ") = js "ls -la" ∧
   trim (js " ls -la ") ≠ []) ∧
  (acceptCommand true w_ls = hide (instance_runCommand (trim (js " ls -la ")) true w_ls) ∧
   ranCommands (_instance (acceptCommand true w_ls)) =
     ranCommands (_instance w_ls) ++ [(trim (js " ls -la "), true)]) ∧
  (_responseEditor w_blank = Some 0%nat ∧
   editors w_blank !! 0%nat = Some r_blank ∧
   ResponseEditor.getValue (_modelService w_blank) r_blank = js "  " ∧
   trim (js "  ") = []) ∧
  acceptCommand true w_blank = w_blank.
Proof.
  assert (H1 : _responseEditor w_ls = Some 0%nat) by (vm_compute; reflexivity).
  assert (H2 : editors w_ls !! 0%nat = Some r_ls) by (vm_compute; reflexivity).
  assert (H3 : ResponseEditor.getValue (_modelService w_ls) r_ls = js " ls -la ")
    by (vm_compute; reflexivity).
  assert (H4 : trim (js " ls -la ") ≠ []) by discriminate.
  assert (B1 : _responseEditor w_blank = Some 0%nat) by (vm_compute; reflexivity).
  assert (B2 : editors w_blank !! 0%nat = Some r_blank) by (vm_compute; reflexivity).
  assert (B3 : ResponseEditor.getValue (_modelService w_blank) r_blank = js "  ")
    by (vm_compute; reflexivity).
  assert (B4 : trim (js "  ") = []) by reflexivity.
  pose proof (acceptCommand_forwards_trimmed w_ls 0 r_ls (js " ls -la ") true H1 H2 H3)
    as [Hrun _].
  pose proof (acceptCommand_forwards_trimmed w_blank 0 r_blank (js "  ") true B1 B2 B3)
    as [_ Hnoop].
  destruct (Hrun H4) as (E1 & E2 & _).
  split; [by repeat split|]. split; [by split|]. split; [by repeat split|].
  exact (Hnoop B4).
Defined.

(** C9: when the field [_responseEditor] is not set, [acceptCommand] leaves
    the state as it is, whatever [shouldExecute]: nothing is forwarded to
    the terminal and [hide] does not run. *)
Theorem acceptCommand_without_editor (w : World) (shouldExecute : bool) :
  _responseEditor w = None → acceptCommand shouldExecute w = w.
Proof.
  intros Hnone. unfold acceptCommand.
  by rewrite (responseEditorValue_absent w Hnone).
Qed.

Lemma acceptCommand_without_editor_witness :
  (_responseEditor w_new = None ∧ acceptCommand true w_new = w_new) ∧
  (_responseEditor (hide w_ls) = None ∧ acceptCommand false (hide w_ls) = hide w_ls).
Proof.
  assert (H1 : _responseEditor w_new = None) by reflexivity.
  assert (H2 : _responseEditor (hide w_ls) = None) by (vm_compute; reflexivity).
  split; split; try assumption.
  - exact (acceptCommand_without_editor w_new true H1).
  - exact (acceptCommand_without_editor (hide w_ls) false H2).
Defined.

(** The two ways the field comes to be unset: the widget was just
    constructed, or [hide] ran. *)
Lemma acceptCommand_after_hide (w : World) (b : bool) : acceptCommand b (hide w) = hide w.
Proof.
  unfold acceptCommand. rewrite responseEditorValue_absent; [done|].
  by rewrite hide_eq.
Qed.

(** ** Revealing and hiding *)

(** The state [reveal] leaves, field by field. *)
Lemma reveal_eq (w : World) :
  reveal w =
  {| _container :=
       {| classList := classList_remove (js "hide") (classList (_container w));
          children := children (_container w) |};
     _inlineChatWidget :=
       InlineChat.layout {| width := 640; height := 150 |} (_inlineChatWidget w);
     _responseEditor := _responseEditor w;
     _instance := _instance w;
     _contextKeyService :=
       {| chatFocused := true;
          chatVisible := true;
          chatResponseEditorFocused := chatResponseEditorFocused (_contextKeyService w) |};
     _chatAccessibilityService := _chatAccessibilityService w;
     _modelService := _modelService w;
     _languageService := _languageService w;
     editors := editors w;
     activeElement := FocusChatInput;
     jobs := jobs w |}.
Proof. reflexivity. Qed.

(** After [reveal] the container no longer has the class hide. *)
Lemma reveal_visible (w : World) : js "hide" ∉ classList (_container (reveal w)).
Proof. rewrite reveal_eq. world_simpl. apply classList_remove_elem. Qed.

(** C4: after [reveal] the context keys [chatFocused] and [chatVisible] are
    true; after [hide] both are false, the container has the class hide, the
    placeholder is the default one, the response editor the field referred
    to is disposed and out of the page, the field is unset, the chat
    message, the follow-ups, the progress and the toolbar are cleared, and
    the terminal has the focus. *)
Theorem reveal_hide_flags (w : World) :
  (chatFocused (_contextKeyService (reveal w)) = true ∧
   chatVisible (_contextKeyService (reveal w)) = true) ∧
  (chatFocused (_contextKeyService (hide w)) = false ∧
   chatVisible (_contextKeyService (hide w)) = false ∧
   js "hide" ∈ classList (_container (hide w)) ∧
   placeholder (_inlineChatWidget (hide w)) =
     js "Ask how to do something in the terminal" ∧
   (∀ this, _responseEditor w = Some this →
      editors (hide w) !! this = ResponseEditor.dispose <$> editors w !! this ∧
      (∀ r, editors (hide w) !! this = Some r → re_disposed r = true) ∧
      EditorContainer this ∉ children (_container (hide w))) ∧
   _responseEditor (hide w) = None ∧
   chatMessage (_inlineChatWidget (hide w)) = None ∧
   followUps (_inlineChatWidget (hide w)) = None ∧
   progress (_inlineChatWidget (hide w)) = false ∧
   toolbar (_inlineChatWidget (hide w)) = false ∧
   activeElement (hide w) = FocusTerminal).
Proof.
  split; [by split|]. rewrite hide_eq. world_simpl.
  split_and!; try reflexivity.
  - apply classList_add_elem.
  - intros this Hsome. rewrite Hsome. split_and!.
    + apply lookup_alter_eq.
    + rewrite lookup_alter_eq. intros r.
      destruct (editors w !! this); [|discriminate]. by intros [= <-].
    + rewrite list_elem_of_filter. by intros [? _].
Qed.

Lemma reveal_hide_flags_witness :
  _responseEditor w_ls = Some 0%nat ∧
  editors (hide w_ls) !! 0%nat = ResponseEditor.dispose <$> editors w_ls !! 0%nat ∧
  EditorContainer 0 ∉ children (_container (hide w_ls)).
Proof.
  assert (H1 : _responseEditor w_ls = Some 0%nat) by (vm_compute; reflexivity).
  pose proof (reveal_hide_flags w_ls) as (_ & _ & _ & _ & _ & Hdisposed & _).
  destruct (Hdisposed 0%nat H1) as (E1 & _ & E2).
  split; [exact H1|]. split; [exact E1 | exact E2].
Defined.

(** ** Writing the chat input *)

(** C5: [setValue(v)] leaves [v] as the text of the chat input, and the
    empty text when [v] is absent; when [v] is absent or empty the response
    editor the field refers to is hidden (and stays where it is); when [v]
    is a text that is not empty, neither the field nor any response editor,
    its being hidden or shown included, changes. *)
Theorem setValue_writes_and_hides (w : World) (v : option jsstring) :
  value (_inlineChatWidget (setValue v w)) = match v with Some s => s | None => [] end ∧
  (v = None ∨ v = Some [] →
   ∀ this r,
     _responseEditor w = Some this →
     editors w !! this = Some r →
     _responseEditor (setValue v w) = Some this ∧
     editors (setValue v w) !! this = Some (ResponseEditor.hide r) ∧
     re_hidden (ResponseEditor.hide r) = true) ∧
  (∀ s, v = Some s → s ≠ [] →
     _responseEditor (setValue v w) = _responseEditor w ∧
     editors (setValue v w) = editors w).
Proof.
  split_and!.
  - unfold setValue, andThen. destruct (negb (truthy v)).
    + unfold onResponseEditor. world_simpl.
      destruct (_responseEditor w); by destruct v.
    + by destruct v.
  - intros Hfalsy this r Hf Hr. unfold setValue, andThen.
    assert (Ht : truthy v = false) by (by destruct Hfalsy as [-> | ->]).
    rewrite Ht. cbn [negb].
    rewrite (onResponseEditor_present _ _ this) by exact Hf. world_simpl.
    split_and!; [exact Hf | by rewrite lookup_alter_eq, Hr | reflexivity].
  - intros s -> Hne. apply truthy_Some in Hne. unfold setValue, andThen.
    rewrite Hne. by split.
Qed.

Lemma setValue_writes_and_hides_witness :
  ((Some ([] : jsstring) = None ∨ Some ([] : jsstring) = Some []) ∧
   _responseEditor w_ls = Some 0%nat ∧
   editors w_ls !! 0%nat = Some r_ls ∧
   re_hidden r_ls = false ∧
   editors (setValue (Some []) w_ls) !! 0%nat = Some (ResponseEditor.hide r_ls)) ∧
  (js "foo" ≠ [] ∧
   editors (setValue (Some (js "foo")) w_ls) = editors w_ls).
Proof.
  assert (H0 : Some ([] : jsstring) = None ∨ Some ([] : jsstring) = Some [])
    by (by right).
  assert (H1 : _responseEditor w_ls = Some 0%nat) by (vm_compute; reflexivity).
  assert (H2 : editors w_ls !! 0%nat = Some r_ls) by (vm_compute; reflexivity).
  assert (H3 : js "foo" ≠ []) by discriminate.
  pose proof (setValue_writes_and_hides w_ls (Some [])) as (_ & Hhide & _).
  pose proof (setValue_writes_and_hides w_ls (Some (js "foo"))) as (_ & _ & Hkeep).
  destruct (Hhide H0 0%nat r_ls H1 H2) as (_ & E1 & _).
  destruct (Hkeep (js "foo") eq_refl H3) as (_ & E2).
  split; [by split_and!|]. by split.
Defined.

(** ** Rendering a command twice *)






(** ** Rendering a message *)

(** C10: with the field referring to a response editor, [renderMessage]
    hides that editor and changes nothing else of it: the field still
    refers to it, it is disposed no more than it was, and its editor, with
    its text, and its model are the same; the other response editors, the
    container, the terminal, the context keys, the model service, the
    language service, the focus, the queue of jobs and, of the inline chat
    widget, everything but the chat message are as they were; the chat
    message is the message given, and the accessibility service received
    the message last. *)
Theorem renderMessage_keeps_editor (w : World) (this : nat) (r : TerminalChatResponseEditor)
    (text : jsstring) (accessibilityRequestId : Z) (request : jsstring) :
  _responseEditor w = Some this →
  editors w !! this = Some r →
  ∃ r',
    _responseEditor (renderMessage text accessibilityRequestId request w) = Some this ∧
    editors (renderMessage text accessibilityRequestId request w) !! this = Some r' ∧
    re_hidden r' = true ∧
    re_disposed r' = re_disposed r ∧
    _editor r' = _editor r ∧
    ResponseEditor.getValue
      (_modelService (renderMessage text accessibilityRequestId request w)) r' =
      ResponseEditor.getValue (_modelService w) r ∧
    model r' = model r ∧
    (∀ other, other ≠ this →
       editors (renderMessage text accessibilityRequestId request w) !! other =
       editors w !! other) ∧
    _container (renderMessage text accessibilityRequestId request w) = _container w ∧
    _instance (renderMessage text accessibilityRequestId request w) = _instance w ∧
    _contextKeyService (renderMessage text accessibilityRequestId request w) =
      _contextKeyService w ∧
    _modelService (renderMessage text accessibilityRequestId request w) = _modelService w ∧
    _languageService (renderMessage text accessibilityRequestId request w) =
      _languageService w ∧
    activeElement (renderMessage text accessibilityRequestId request w) = activeElement w ∧
    jobs (renderMessage text accessibilityRequestId request w) = jobs w ∧
    InlineChat.updateChatMessage None
      (_inlineChatWidget (renderMessage text accessibilityRequestId request w)) =
      InlineChat.updateChatMessage None (_inlineChatWidget w) ∧
    chatMessage (_inlineChatWidget (renderMessage text accessibilityRequestId request w)) =
      Some {| message := {| md_value := text |}; requestId := request;
              providerId := js "terminal" |} ∧
    _chatAccessibilityService (renderMessage text accessibilityRequestId request w) =
      _chatAccessibilityService w ++ [(text, accessibilityRequestId)] ∧
    renderMessage text accessibilityRequestId request w =
      with_chatAccessibilityService
        (_chatAccessibilityService w ++ [(text, accessibilityRequestId)])
        (with_inlineChatWidget
           (InlineChat.updateChatMessage
              (Some {| message := {| md_value := text |}; requestId := request;
                       providerId := js "terminal" |}))
           (with_editors (<[this := r']> (editors w)) w)).
Proof.
  intros Hf Hr. exists (ResponseEditor.hide r).
  unfold renderMessage, andThen.
  rewrite (onResponseEditor_present _ _ this) by exact Hf. world_simpl.
  split_and!; try done.
  - by rewrite lookup_alter_eq, Hr.
  - intros other Hne. by rewrite lookup_alter_ne.
  - assert (Hmap : alter ResponseEditor.hide this (editors w) =
                   <[this := ResponseEditor.hide r]> (editors w)).
    { apply map_eq. intros i. destruct (decide (this = i)) as [<-|Hne].
      - by rewrite lookup_alter_eq, lookup_insert_eq, Hr.
      - by rewrite lookup_alter_ne, lookup_insert_ne. }
    by rewrite Hmap.
Qed.

Lemma renderMessage_keeps_editor_witness :
  (_responseEditor w_ls = Some 0%nat ∧ editors w_ls !! 0%nat = Some r_ls) ∧
  ∃ r',
    _responseEditor (renderMessage (js "Try ls") 8 (js "request-1") w_ls) = Some 0%nat ∧
    editors (renderMessage (js "Try ls") 8 (js "request-1") w_ls) !! 0%nat = Some r' ∧
    re_hidden r' = true ∧
    re_disposed r' = re_disposed r_ls ∧
    ResponseEditor.getValue
      (_modelService (renderMessage (js "Try ls") 8 (js "request-1") w_ls)) r' =
      ResponseEditor.getValue (_modelService w_ls) r_ls.
Proof.
  assert (H1 : _responseEditor w_ls = Some 0%nat) by (vm_compute; reflexivity).
  assert (H2 : editors w_ls !! 0%nat = Some r_ls) by (vm_compute; reflexivity).
  split; [by split|].
  destruct (renderMessage_keeps_editor w_ls 0 r_ls (js "Try ls") 8 (js "request-1") H1 H2)
    as (r' & E1 & E2 & E3 & E4 & _ & E5 & _).
  exists r'. by split_and!.
Defined.

(** * Further properties *)

(** ** What [trim] removes and what it keeps *)

Lemma trimStart_split (s : jsstring) :
  ∃ pre, s = pre ++ trimStart s ∧ forallb isTrimmable pre = true.
Proof.
  induction s as [|c s (pre & Hs & Hpre)]; [by exists []|].
  cbn [trimStart]. destruct (isTrimmable c) eqn:Ec.
  - exists (c :: pre). cbn [forallb app]. rewrite Ec, Hpre. split; [by f_equal|done].
  - by exists [].
Qed.

Lemma trimStart_snoc (l : jsstring) (c : N) :
  isTrimmable c = false → trimStart (l ++ [c]) = trimStart l ++ [c].
Proof.
  intros Hc. induction l as [|d l IH]; cbn [trimStart app].
  - by rewrite Hc.
  - by destruct (isTrimmable d).
Qed.

Lemma trimEnd_cons (c : N) (s : jsstring) :
  isTrimmable c = false → trimEnd (c :: s) = c :: trimEnd s.
Proof.
  intros Hc. unfold trimEnd. cbn [rev].
  rewrite trimStart_snoc by exact Hc. apply rev_unit.
Qed.

Lemma trimEnd_split (s : jsstring) :
  ∃ post, s = trimEnd s ++ post ∧ forallb isTrimmable post = true.
Proof.
  destruct (trimStart_split (rev s)) as (pre & Hs & Hpre).
  exists (rev pre). split.
  - unfold trimEnd. rewrite <- rev_app_distr, <- Hs. symmetry. apply rev_involutive.
  - apply forallb_forall. intros x Hx. apply in_rev in Hx.
    rewrite forallb_forall in Hpre. by apply Hpre.
Qed.

Lemma trim_clean (s : jsstring) : trim s = [] ∨ isClean (trim s) = true.
Proof.
  unfold trim. destruct (trimStart s) as [|c s'] eqn:E; [by left|right].
  pose proof (trimStart_head s c s' E) as Hc.
  rewrite trimEnd_cons by exact Hc. unfold isClean. cbn [rev].
  unfold trimEnd. rewrite rev_involutive.
  destruct (trimStart (rev s')) as [|d t] eqn:Er; cbn [app].
  - by rewrite Hc.
  - by rewrite Hc, (trimStart_head _ _ _ Er).
Qed.

Lemma trim_of_clean (c : jsstring) : isClean c = true → trim c = c.
Proof.
  unfold isClean. destruct c as [|first c]; [discriminate|].
  destruct (rev (first :: c)) as [|last t] eqn:Er; [discriminate|].
  intros [Hfirst Hlast]%andb_prop.
  apply negb_true_iff in Hfirst. apply negb_true_iff in Hlast.
  unfold trim. cbn [trimStart]. rewrite Hfirst.
  unfold trimEnd. rewrite Er. cbn [trimStart]. rewrite Hlast, <- Er.
  apply rev_involutive.
Qed.

(** X1: the text is some white space and line terminators, then the
    trimmed text, then again some white space and line terminators, and the
    trimmed text is empty or else begins and ends with a code unit that is
    neither: [trim] drops nothing inside the text and leaves nothing to
    drop at either end. *)
Theorem trim_decompose (s : jsstring) :
  ∃ pre post,
    s = pre ++ trim s ++ post ∧
    forallb isTrimmable pre = true ∧
    forallb isTrimmable post = true ∧
    (trim s = [] ∨ isClean (trim s) = true).
Proof.
  destruct (trimStart_split s) as (pre & Hs & Hpre).
  destruct (trimEnd_split (trimStart s)) as (post & Ht & Hpost).
  exists pre, post. split_and!; try done.
  - unfold trim. by rewrite <- Ht.
  - apply trim_clean.
Qed.

(** X2: a text that is not empty and neither begins nor ends with white
    space or a line terminator is its own trimmed text, whatever white space
    it has inside; so trimming twice is trimming once. *)
Theorem trim_fixes_clean (s : jsstring) :
  (isClean s = true → trim s = s) ∧ trim (trim s) = trim s.
Proof.
  split; [apply trim_of_clean|].
  destruct (trim_clean s) as [-> | Hclean]; [reflexivity|].
  by apply trim_of_clean.
Qed.

Lemma trim_fixes_clean_witness :
  isClean (js "ls  -la") = true ∧ trim (js "ls  -la") = js "ls  -la".
Proof.
  split; [reflexivity|].
  apply (proj1 (trim_fixes_clean (js "ls  -la"))). reflexivity.
Defined.

(** ** What the table of languages can answer *)

(** X3: whatever the shell type and the language service, the language is
    one of the generic three (shellscript, powershell, plaintext) or else it
    is the shell type itself, one of fish, zsh and bash, and the language
    service has it registered: a language of a specific shell that is not
    registered is never answered. *)
Theorem language_registered_or_generic (l : ILanguageService) (shell : option jsstring) :
  _getLanguageFromShell l shell ∈ [js "shellscript"; js "powershell"; js "plaintext"] ∨
  (shell = Some (_getLanguageFromShell l shell) ∧
   _getLanguageFromShell l shell ∈ [js "fish"; js "zsh"; js "bash"] ∧
   isRegisteredLanguageId l (_getLanguageFromShell l shell) = true).
Proof.
  assert (Hgeneric : ∀ x, x ∈ [js "shellscript"; js "powershell"; js "plaintext"] →
            x ∈ [js "shellscript"; js "powershell"; js "plaintext"] ∨
            (shell = Some x ∧ x ∈ [js "fish"; js "zsh"; js "bash"] ∧
             isRegisteredLanguageId l x = true)) by (intros; by left).
  assert (Hspecific : ∀ x, shell = Some x → x ∈ [js "fish"; js "zsh"; js "bash"] →
            (if isRegisteredLanguageId l x then x else js "shellscript")
              ∈ [js "shellscript"; js "powershell"; js "plaintext"] ∨
            (shell = Some (if isRegisteredLanguageId l x then x else js "shellscript") ∧
             (if isRegisteredLanguageId l x then x else js "shellscript")
               ∈ [js "fish"; js "zsh"; js "bash"] ∧
             isRegisteredLanguageId l
               (if isRegisteredLanguageId l x then x else js "shellscript") = true)).
  { intros x Hx Hin. destruct (isRegisteredLanguageId l x) eqn:E; [by right|].
    left. apply list_elem_of_here. }
  unfold _getLanguageFromShell. repeat case_decide.
  - apply Hspecific; [done | apply list_elem_of_here].
  - apply Hspecific; [done | apply list_elem_of_further, list_elem_of_here].
  - apply Hspecific; [done | do 2 apply list_elem_of_further; apply list_elem_of_here].
  - apply Hgeneric, list_elem_of_here.
  - apply Hgeneric, list_elem_of_further, list_elem_of_here.
  - apply Hgeneric. do 2 apply list_elem_of_further. apply list_elem_of_here.
Qed.

(** ** What the calls leave alone *)

Lemma renderTerminalCommand_frame (c : jsstring) (q : Z) (s : option jsstring) (w : World) :
  _instance (renderTerminalCommand c q s w) = _instance w ∧
  _contextKeyService (renderTerminalCommand c q s w) = _contextKeyService w ∧
  classList (_container (renderTerminalCommand c q s w)) = classList (_container w) ∧
  _inlineChatWidget (renderTerminalCommand c q s w) = _inlineChatWidget w ∧
  _languageService (renderTerminalCommand c q s w) = _languageService w ∧
  activeElement (renderTerminalCommand c q s w) = activeElement w.
Proof.
  destruct (_responseEditor w) as [this|] eqn:E.
  - by rewrite (renderTerminalCommand_present c q s w this E).
  - unfold renderTerminalCommand, andThen.
    rewrite (onResponseEditor_absent _ (acceptResponse c q w)) by exact E.
    world_simpl. rewrite E.
    unfold newTerminalChatResponseEditor. world_simpl.
    destruct (_getTextModel _ (_modelService w)) as [m ms].
    rewrite responseEditor_setValue_eq. by world_simpl.
Qed.

Lemma renderTerminalCommand_absent_children (c : jsstring) (q : Z) (s : option jsstring)
    (w : World) :
  _responseEditor w = None →
  children (_container (renderTerminalCommand c q s w)) =
  EditorContainer (fresh (dom (editors w))) :: children (_container w).
Proof.
  intros E. unfold renderTerminalCommand, andThen.
  rewrite (onResponseEditor_absent _ (acceptResponse c q w)) by exact E.
  world_simpl. rewrite E.
  unfold newTerminalChatResponseEditor. world_simpl.
  destruct (_getTextModel _ (_modelService w)) as [m ms].
  rewrite responseEditor_setValue_eq. by world_simpl.
Qed.

Lemma runJob_frame (w : World) :
  _responseEditor (runJob w) = _responseEditor w ∧
  _container (runJob w) = _container w ∧
  _instance (runJob w) = _instance w ∧
  _contextKeyService (runJob w) = _contextKeyService w ∧
  _languageService (runJob w) = _languageService w.
Proof.
  unfold runJob. destruct (jobs w) as [|j rest]; [done|].
  unfold modelResolved. by destruct (job_model j).
Qed.

Lemma editorEvent_frame (b : bool) (this : nat) (w : World) :
  let w' := match editors w !! this with
            | Some r => if re_disposed r then w else responseEditorFocusedContextKey_set b w
            | None => w
            end in
  _responseEditor w' = _responseEditor w ∧ editors w' = editors w ∧
  _container w' = _container w ∧ _instance w' = _instance w ∧
  chatFocused (_contextKeyService w') = chatFocused (_contextKeyService w) ∧
  chatVisible (_contextKeyService w') = chatVisible (_contextKeyService w).
Proof.
  cbn zeta. destruct (editors w !! this) as [r|]; [|done]. by destruct (re_disposed r).
Qed.

(** ** The invariant of the store of editors and of the page *)

Lemma inv_new (instance : ITerminalInstance) (keys : ContextKeys)
    (accessibility : list (jsstring * Z)) (models : ModelService)
    (languages : ILanguageService) (focus : Focus) :
  inv_world (newTerminalChatWidget instance keys accessibility models languages focus).
Proof.
  split_and!; [apply wf_new | | done].
  intros a r Hr. unfold newTerminalChatWidget, _reset in Hr. world_simpl.
  by rewrite lookup_empty in Hr.
Qed.

Lemma inv_same (w w' : World) :
  _responseEditor w' = _responseEditor w →
  editors w' = editors w →
  children (_container w') = children (_container w) →
  inv_world w → inv_world w'.
Proof.
  intros Hf He Hc (Hwf & Hlive & Hchildren). split_and!.
  - by apply (wf_same w).
  - rewrite Hf, He. apply Hlive.
  - by rewrite Hf, Hc.
Qed.

Lemma inv_alter (m : TerminalChatResponseEditor -> TerminalChatResponseEditor) (a : nat)
    (w w' : World) :
  (∀ r, re_disposed (m r) = re_disposed r) →
  _responseEditor w' = _responseEditor w →
  editors w' = alter m a (editors w) →
  children (_container w') = children (_container w) →
  inv_world w → inv_world w'.
Proof.
  intros Hm Hf He Hc (Hwf & Hlive & Hchildren). split_and!.
  - intros this. rewrite Hf, He. intros Hsome.
    destruct (Hwf this Hsome) as (r & Hr & Hl).
    destruct (decide (a = this)) as [->|Hne].
    + exists (m r). rewrite lookup_alter_eq, Hr. by rewrite Hm.
    + exists r. by rewrite lookup_alter_ne.
  - intros b r. rewrite Hf, He. destruct (decide (a = b)) as [->|Hne].
    + rewrite lookup_alter_eq. destruct (editors w !! b) as [r0|] eqn:E; [|done].
      intros [= <-]. rewrite Hm. by apply Hlive.
    + rewrite lookup_alter_ne by done. apply Hlive.
  - by rewrite Hf, Hc.
Qed.

Lemma inv_hide (w : World) : inv_world w → inv_world (hide w).
Proof.
  intros (Hwf & Hlive & Hchildren). rewrite hide_eq. split_and!.
  - by apply wf_unset.
  - world_simpl. intros a r. destruct (_responseEditor w) as [this|] eqn:E.
    + destruct (decide (this = a)) as [->|Hne].
      * rewrite lookup_alter_eq. destruct (editors w !! a); [|done].
        by intros [= <-].
      * rewrite lookup_alter_ne by done. intros Hr Hl.
        specialize (Hlive a r Hr Hl). congruence.
    + apply Hlive.
  - world_simpl. rewrite Hchildren. destruct (_responseEditor w) as [this|]; [|done].
    cbn [filter list_filter]. rewrite decide_False by (by intros ?).
    by rewrite decide_True.
Qed.

Lemma inv_renderTerminalCommand (c : jsstring) (q : Z) (s : option jsstring) (w : World) :
  inv_world w → inv_world (renderTerminalCommand c q s w).
Proof.
  intros Hinv. destruct (_responseEditor w) as [this|] eqn:E.
  - rewrite (renderTerminalCommand_present c q s w this E).
    by apply (inv_alter ResponseEditor.show this w).
  - destruct Hinv as (Hwf & Hlive & Hchildren).
    destruct (renderTerminalCommand_absent c q s w E) as [Hf [m He]].
    split_and!.
    + by apply wf_renderTerminalCommand.
    + intros a r. rewrite Hf, He. destruct (decide (fresh (dom (editors w)) = a)) as [<-|Hne].
      * done.
      * rewrite lookup_insert_ne by done. intros Hr Hl.
        specialize (Hlive a r Hr Hl). congruence.
    + rewrite Hf, (renderTerminalCommand_absent_children c q s w E), Hchildren, E. done.
Qed.

Lemma inv_acceptCommand (b : bool) (w : World) : inv_world w → inv_world (acceptCommand b w).
Proof.
  intros Hinv. unfold acceptCommand.
  destruct (negb (truthy (responseEditorValue w))); [done|].
  unfold andThen. apply inv_hide. by apply (inv_same w).
Qed.

Lemma inv_runJob (w : World) : inv_world w → inv_world (runJob w).
Proof.
  intros Hinv. unfold runJob. destruct (jobs w) as [|j rest]; [done|].
  unfold modelResolved. destruct (job_model j) as [m|]; [|by apply (inv_same w)].
  by apply (inv_alter (ResponseEditor.with_editor (ce_setModel m)) (job_editor j) w).
Qed.

Lemma inv_step (o : Op) (w : World) : inv_world w → inv_world (step o w).
Proof.
  intros Hinv.
  destruct o as [c q s | text a request | | | | v | b | p | e | e | ]; cbn [step].
  - by apply inv_renderTerminalCommand.
  - unfold renderMessage, andThen. destruct (_responseEditor w) as [this|] eqn:E.
    + rewrite (onResponseEditor_present _ _ this) by exact E.
      by apply (inv_alter ResponseEditor.hide this w).
    + rewrite onResponseEditor_absent by exact E. by apply (inv_same w).
  - by apply (inv_same w).
  - by apply inv_hide.
  - by apply (inv_same w).
  - unfold setValue, andThen. destruct (negb (truthy v)); [|by apply (inv_same w)].
    destruct (_responseEditor w) as [this|] eqn:E.
    + rewrite (onResponseEditor_present _ _ this) by exact E.
      by apply (inv_alter ResponseEditor.hide this w).
    + rewrite onResponseEditor_absent by exact E. by apply (inv_same w).
  - by apply inv_acceptCommand.
  - by apply (inv_same w).
  - destruct (editorEvent_frame true e w) as (? & ? & Hc & _).
    apply (inv_same w); try done. unfold didFocusEditorText. by rewrite Hc.
  - destruct (editorEvent_frame false e w) as (? & ? & Hc & _).
    apply (inv_same w); try done. unfold didBlurEditorText. by rewrite Hc.
  - by apply inv_runJob.
Qed.

Lemma inv_run (ops : list Op) (w : World) : inv_world w → inv_world (run ops w).
Proof.
  revert w. induction ops as [|o ops IH]; intros w Hinv; [done|].
  apply IH. by apply inv_step.
Qed.

(** X4: in every state a widget reaches from its construction, by any
    calls of its methods, editor events and turns of the job queue, the
    field [_responseEditor], when set, refers to a response editor that
    exists and is not disposed, every other response editor ever created is
    disposed, and the container holds the container of that one editor, if
    any, before the node of the inline chat widget: no response editor is
    left behind, in the store or on the page. *)
Theorem reachable_inv (instance : ITerminalInstance) (keys : ContextKeys)
    (accessibility : list (jsstring * Z)) (models : ModelService)
    (languages : ILanguageService) (focus : Focus) (ops : list Op) :
  inv_world
    (run ops (newTerminalChatWidget instance keys accessibility models languages focus)).
Proof. apply inv_run, inv_new. Qed.

(** ** Hiding twice, revealing twice, accepting twice *)

Lemma classList_add_idem (c : jsstring) (l : list jsstring) :
  classList_add c (classList_add c l) = classList_add c l.
Proof.
  unfold classList_add. destruct (decide (c ∈ l)) as [Hin|Hin].
  - by rewrite decide_True.
  - rewrite decide_True; [done|].
    apply elem_of_app. right. apply list_elem_of_here.
Qed.

Lemma classList_remove_idem (c : jsstring) (l : list jsstring) :
  classList_remove c (classList_remove c l) = classList_remove c l.
Proof.
  unfold classList_remove. induction l as [|d l IH]; [done|].
  cbn [filter list_filter]. case_decide as Hd; [|exact IH].
  cbn [filter list_filter]. rewrite decide_True by exact Hd. by f_equal.
Qed.

(** X5: [hide] after [hide] changes nothing more, and neither does
    [reveal] after [reveal]. *)
Theorem hide_reveal_idempotent (w : World) :
  hide (hide w) = hide w ∧ reveal (reveal w) = reveal w.
Proof.
  split.
  - rewrite (hide_eq (hide w)). rewrite !hide_eq. world_simpl.
    by rewrite classList_add_idem.
  - rewrite (reveal_eq (reveal w)). rewrite !reveal_eq. world_simpl.
    by rewrite classList_remove_idem.
Qed.

(** X6: a second [acceptCommand] right after a first does nothing,
    whatever the two flags: the first either did nothing, for a reason that
    still holds, or forwarded the command and unset the field, so the second
    finds no response editor.  The command is never forwarded twice. *)
Theorem acceptCommand_twice (w : World) (b1 b2 : bool) :
  acceptCommand b2 (acceptCommand b1 w) = acceptCommand b1 w.
Proof.
  unfold acceptCommand at 2 3.
  destruct (negb (truthy (responseEditorValue w))) eqn:E.
  - unfold acceptCommand. by rewrite E.
  - unfold andThen. apply acceptCommand_after_hide.
Qed.

(** ** What reaches the terminal *)

Lemma onResponseEditor_frame (m : TerminalChatResponseEditor -> TerminalChatResponseEditor)
    (w : World) :
  _container (onResponseEditor m w) = _container w ∧
  _instance (onResponseEditor m w) = _instance w ∧
  _contextKeyService (onResponseEditor m w) = _contextKeyService w.
Proof. unfold onResponseEditor. by destruct (_responseEditor w). Qed.

Lemma trim_nonempty_clean (s : jsstring) : trim s ≠ [] → isClean (trim s) = true.
Proof. intros Hne. by destruct (trim_clean s). Qed.

(** One call or event: the commands the terminal received are the same, or
    the call is [acceptCommand] and one command was added, the trimmed text
    of the response editor. *)
Lemma step_ranCommands (o : Op) (w : World) :
  ranCommands (_instance (step o w)) = ranCommands (_instance w) ∨
  ∃ b c, o = AcceptCommand b ∧ isClean c = true ∧
         responseEditorValue w = Some c ∧
         ranCommands (_instance (step o w)) = ranCommands (_instance w) ++ [(c, b)].
Proof.
  destruct o as [c q s | text a request | | | | v | b | p | e | e | ]; cbn [step].
  - left. by destruct (renderTerminalCommand_frame c q s w) as (-> & _).
  - left. unfold renderMessage, andThen. world_simpl.
    by destruct (onResponseEditor_frame ResponseEditor.hide w) as (_ & -> & _).
  - by left.
  - left. by rewrite hide_eq.
  - by left.
  - left. unfold setValue, andThen. destruct (negb (truthy v)); [|done].
    by destruct (onResponseEditor_frame ResponseEditor.hide
                   (with_inlineChatWidget (InlineChat.set_value (orEmpty v)) w))
      as (_ & -> & _).
  - unfold acceptCommand.
    destruct (responseEditorValue w) as [[|d c]|] eqn:E; cbn [truthy negb]; try (by left).
    right. exists b, (d :: c). split_and!; try done.
    + unfold responseEditorValue in E.
      destruct (_responseEditor w) as [this|]; [|discriminate]. cbn in E.
      destruct (editors w !! this) as [r|]; [|discriminate]. cbn in E.
      injection E as E. rewrite <- E. apply trim_nonempty_clean. by rewrite E.
    + unfold andThen. by rewrite hide_eq.
  - by left.
  - left. unfold didFocusEditorText.
    by destruct (editorEvent_frame true e w) as (_ & _ & _ & -> & _).
  - left. unfold didBlurEditorText.
    by destruct (editorEvent_frame false e w) as (_ & _ & _ & -> & _).
  - left. by destruct (runJob_frame w) as (_ & _ & -> & _).
Qed.

(** X7: over any calls and events, the commands the terminal received are
    never taken back or reordered, only added to; there are at most as many
    new ones as there were calls of [acceptCommand]; and every new one is
    not empty and neither begins nor ends with white space or a line
    terminator. *)
Theorem run_ranCommands (ops : list Op) (w : World) :
  ∃ new,
    ranCommands (_instance (run ops w)) = ranCommands (_instance w) ++ new ∧
    (length new ≤ length (filter (fun o => isAcceptCommand o = true) ops))%nat ∧
    Forall (fun cb => isClean cb.1 = true) new.
Proof.
  revert w. induction ops as [|o ops IH]; intros w.
  - exists []. split_and!; [by rewrite app_nil_r | done | done].
  - change (run (o :: ops) w) with (run ops (step o w)).
    destruct (IH (step o w)) as (new & Hnew & Hlen & Hclean).
    destruct (step_ranCommands o w) as [Hsame | (b & c & -> & Hc & _ & Hadd)].
    + exists new. rewrite Hnew, Hsame. split_and!; [done| |done].
      rewrite filter_cons. case_decide; cbn [length]; lia.
    + exists ((c, b) :: new). rewrite Hnew, Hadd, <- app_assoc. split_and!; [done| |].
      * rewrite filter_cons. cbn [isAcceptCommand]. rewrite decide_True by done.
        cbn [length]. lia.
      * by constructor.
Qed.

(** ** The context keys and the class hide *)

Lemma keys_agree_same (w w' : World) :
  chatFocused (_contextKeyService w') = chatFocused (_contextKeyService w) →
  chatVisible (_contextKeyService w') = chatVisible (_contextKeyService w) →
  classList (_container w') = classList (_container w) →
  keys_agree w → keys_agree w'.
Proof. unfold keys_agree. by intros -> -> ->. Qed.

Lemma keys_agree_hide (w : World) : keys_agree (hide w).
Proof.
  rewrite hide_eq. unfold keys_agree. world_simpl. split; [done|].
  cbn [chatVisible]. rewrite bool_decide_eq_true_2; [done|]. apply classList_add_elem.
Qed.

Lemma keys_agree_reveal (w : World) : keys_agree (reveal w).
Proof.
  rewrite reveal_eq. unfold keys_agree. world_simpl. split; [done|].
  cbn [chatVisible]. rewrite bool_decide_eq_false_2; [done|]. apply classList_remove_elem.
Qed.

Lemma keys_agree_step (o : Op) (w : World) : keys_agree w → keys_agree (step o w).
Proof.
  intros Hk.
  destruct o as [c q s | text a request | | | | v | b | p | e | e | ]; cbn [step].
  - destruct (renderTerminalCommand_frame c q s w) as (_ & Hkeys & Hclass & _).
    apply (keys_agree_same w); by rewrite ?Hkeys, ?Hclass.
  - unfold renderMessage, andThen.
    destruct (onResponseEditor_frame ResponseEditor.hide w) as (Hc & _ & Hkeys).
    apply (keys_agree_same w); world_simpl; by rewrite ?Hkeys, ?Hc.
  - apply keys_agree_reveal.
  - apply keys_agree_hide.
  - by apply (keys_agree_same w).
  - unfold setValue, andThen. destruct (negb (truthy v)); [|by apply (keys_agree_same w)].
    destruct (onResponseEditor_frame ResponseEditor.hide
                (with_inlineChatWidget (InlineChat.set_value (orEmpty v)) w))
      as (Hc & _ & Hkeys).
    apply (keys_agree_same w); by rewrite ?Hkeys, ?Hc.
  - unfold acceptCommand. destruct (negb (truthy (responseEditorValue w))); [done|].
    apply keys_agree_hide.
  - by apply (keys_agree_same w).
  - unfold didFocusEditorText.
    destruct (editorEvent_frame true e w) as (_ & _ & Hc & _ & Hf & Hv).
    apply (keys_agree_same w); by rewrite ?Hf, ?Hv, ?Hc.
  - unfold didBlurEditorText.
    destruct (editorEvent_frame false e w) as (_ & _ & Hc & _ & Hf & Hv).
    apply (keys_agree_same w); by rewrite ?Hf, ?Hv, ?Hc.
  - destruct (runJob_frame w) as (_ & Hc & _ & Hkeys & _).
    apply (keys_agree_same w); by rewrite ?Hkeys, ?Hc.
Qed.

Lemma keys_agree_run (ops : list Op) (w : World) : keys_agree w → keys_agree (run ops w).
Proof.
  revert w. induction ops as [|o ops IH]; intros w Hk; [done|].
  apply IH. by apply keys_agree_step.
Qed.

(** X8: from the first [hide] or [reveal] on, whatever is called after it,
    the context keys [chatFocused] and [chatVisible] hold the same value,
    and that value is true exactly when the container is without the class
    hide: the two keys are only ever set together, where the class is
    set. *)
Theorem keys_agree_from_hide_or_reveal (w : World) (ops : list Op) :
  keys_agree (run ops (hide w)) ∧ keys_agree (run ops (reveal w)).
Proof.
  split; apply keys_agree_run; [apply keys_agree_hide | apply keys_agree_reveal].
Qed.

(** ** Resolving the text model again *)

Section GetTextModelAgain.

Context {M R : Type} `{IModelService M R}.

Hypothesis created_registered : ∀ v l r b s,
  getModel (createModel v l r b s).2 r = Some (createModel v l r b s).1.

Hypothesis created_live : ∀ v l r b s,
  isDisposed (createModel v l r b s).2 (createModel v l r b s).1 = false.

Lemma getTextModel_stable (resource : URI) (s : M) :
  _getTextModel resource (_getTextModel resource s).2 = _getTextModel resource s.
Proof.
  destruct (getModel s resource) as [existing|] eqn:Hget.
  - destruct (isDisposed s existing) eqn:Hd.
    + rewrite (getTextModel_created resource s) by eauto. cbn [fst snd].
      by apply getTextModel_existing.
    + rewrite (getTextModel_existing resource s existing Hget Hd). cbn [snd].
      by apply getTextModel_existing.
  - rewrite (getTextModel_created resource s) by eauto. cbn [fst snd].
    by apply getTextModel_existing.
Qed.

End GetTextModelAgain.

(** X11: for a model service whose [createModel] registers the model it
    creates under the resource given, not disposed, resolving the same
    resource a second time answers the model of the first time and leaves
    the service as the first time left it: at most one model is created for
    a resource, however often it is resolved. *)
Theorem getTextModel_twice {M R : Type} `{IModelService M R}
    (created_registered : ∀ v l r b s,
       getModel (createModel v l r b s).2 r = Some (createModel v l r b s).1)
    (created_live : ∀ v l r b s,
       isDisposed (createModel v l r b s).2 (createModel v l r b s).1 = false)
    (resource : URI) (s : M) :
  _getTextModel resource (_getTextModel resource s).2 = _getTextModel resource s.
Proof. by apply getTextModel_stable. Qed.

Lemma ms_created_registered (v : jsstring) (l : option jsstring) (r : URI) (b : bool)
    (s : ModelService) :
  getModel (createModel v l r b s).2 r = Some (createModel v l r b s).1.
Proof. apply ms_createModel_registered. Qed.

Lemma ms_created_live (v : jsstring) (l : option jsstring) (r : URI) (b : bool)
    (s : ModelService) :
  isDisposed (createModel v l r b s).2 (createModel v l r b s).1 = false.
Proof. apply ms_createModel_registered. Qed.

Lemma getTextModel_twice_witness :
  _getTextModel uri_ls (_getTextModel uri_ls ms_empty).2 = _getTextModel uri_ls ms_empty.
Proof. exact (getTextModel_twice ms_created_registered ms_created_live uri_ls ms_empty). Defined.

(** ** The resource of a response editor *)

Lemma digits_inj (u u' : Decimal.uint) : digits u = digits u' → u = u'.
Proof.
  revert u'. induction u as [|u IH|u IH|u IH|u IH|u IH|u IH|u IH|u IH|u IH|u IH];
    intros [|u'|u'|u'|u'|u'|u'|u'|u'|u'|u']; cbn [digits]; intros Heq;
    try discriminate; try reflexivity;
    injection Heq as Heq; f_equal; by apply IH.
Qed.

Lemma numberToString_inj (n n' : N) : numberToString n = numberToString n' → n = n'.
Proof.
  unfold numberToString. intros Heq%digits_inj.
  by apply Stdlib.Numbers.DecimalN.Unsigned.to_uint_inj.
Qed.

(** X12: the resource under which a response editor resolves its text
    model tells the terminal and the initial command apart: two resources
    are the same only for the same instance id and the same command. *)
Theorem resource_inj (i i' : N) (c c' : jsstring) :
  URI_from (js "terminal-inline-chat-" ++ numberToString i) (js "terminal-inline-chat") c =
  URI_from (js "terminal-inline-chat-" ++ numberToString i') (js "terminal-inline-chat") c' →
  i = i' ∧ c = c'.
Proof.
  unfold URI_from. intros Heq.
  assert (Hpath : js "terminal-inline-chat-" ++ numberToString i =
                  js "terminal-inline-chat-" ++ numberToString i')
    by exact (f_equal path Heq).
  assert (Hfragment : c = c') by exact (f_equal fragment Heq).
  split; [|done]. apply numberToString_inj. by apply app_inv_head in Hpath.
Qed.

Lemma resource_inj_witness :
  URI_from (js "terminal-inline-chat-" ++ numberToString 1) (js "terminal-inline-chat")
    (js "ls") = uri_ls ∧
  (1 = 1 ∧ js "ls" = js "ls").
Proof.
  assert (Heq : URI_from (js "terminal-inline-chat-" ++ numberToString 1)
                  (js "terminal-inline-chat") (js "ls") =
                URI_from (js "terminal-inline-chat-" ++ numberToString 1)
                  (js "terminal-inline-chat") (js "ls")) by reflexivity.
  split; [reflexivity|]. exact (resource_inj 1 1 (js "ls") (js "ls") Heq).
Defined.

(** ** The text model and its language *)

(** [renderTerminalCommand] when the field is not set, in full: what it
    leaves in the field, the store of editors, the model service and the job
    queue.  The command written last is dropped, the new editor having no
    text model yet. *)
Lemma renderTerminalCommand_creates (c : jsstring) (q : Z) (s : option jsstring) (w : World) :
  _responseEditor w = None →
  let this := fresh (dom (editors w)) in
  let resolved :=
    _getTextModel
      (URI_from (js "terminal-inline-chat-" ++ numberToString (instanceId (_instance w)))
                (js "terminal-inline-chat") c)
      (_modelService w) in
  _responseEditor (renderTerminalCommand c q s w) = Some this ∧
  editors (renderTerminalCommand c q s w) =
    <[this := {| re_hidden := false;
                 _editor := {| ce_model := None; ce_disposed := false |};
                 model := resolved.1; re_disposed := false |}]> (editors w) ∧
  _modelService (renderTerminalCommand c q s w) = resolved.2 ∧
  jobs (renderTerminalCommand c q s w) =
    jobs w ++ [{| job_editor := this; job_model := resolved.1; job_shellType := s |}].
Proof.
  intros E this resolved. unfold renderTerminalCommand, andThen.
  rewrite (onResponseEditor_absent _ (acceptResponse c q w)) by exact E.
  world_simpl. rewrite E.
  unfold newTerminalChatResponseEditor. world_simpl. fold resolved.
  destruct resolved as [m ms].
  rewrite responseEditor_setValue_eq. world_simpl. fold this.
  by rewrite lookup_insert_eq.
Qed.







(** ** The text model outlives the response editor *)

(** X14: [hide] disposes the response editor and leaves its text model to
    the model service.  When the same command is rendered again after
    [hide], the response editor is a new one, the one before stays
    disposed, and the new one resolves to the text model of the one before:
    the second rendering creates no model and leaves the model service as
    it was. *)
Theorem model_outlives_editor (c : jsstring) (q1 q2 : Z) (s1 s2 : option jsstring)
    (w : World) :
  _responseEditor w = None →
  ∃ this1 this2 m r1 r2,
    _responseEditor (renderTerminalCommand c q1 s1 w) = Some this1 ∧
    _responseEditor
      (renderTerminalCommand c q2 s2 (hide (renderTerminalCommand c q1 s1 w))) =
      Some this2 ∧
    this1 ≠ this2 ∧
    editors (renderTerminalCommand c q2 s2 (hide (renderTerminalCommand c q1 s1 w)))
      !! this1 = Some r1 ∧
    re_disposed r1 = true ∧
    model r1 = Some m ∧
    editors (renderTerminalCommand c q2 s2 (hide (renderTerminalCommand c q1 s1 w)))
      !! this2 = Some r2 ∧
    re_disposed r2 = false ∧
    model r2 = Some m ∧
    _modelService (renderTerminalCommand c q2 s2 (hide (renderTerminalCommand c q1 s1 w))) =
      _modelService (renderTerminalCommand c q1 s1 w).
Proof.
  intros E.
  destruct (renderTerminalCommand_creates c q1 s1 w E) as (Hf1 & He1 & Hms1 & _).
  destruct (renderTerminalCommand_frame c q1 s1 w) as (Hinst & _).
  set (w1 := renderTerminalCommand c q1 s1 w) in *.
  assert (Hf2 : _responseEditor (hide w1) = None) by (by rewrite hide_eq).
  assert (Hinst2 : _instance (hide w1) = _instance w) by (by rewrite hide_eq).
  assert (Hms2 : _modelService (hide w1) = _modelService w1) by (by rewrite hide_eq).
  assert (He2 : editors (hide w1) = alter ResponseEditor.dispose (fresh (dom (editors w)))
                                      (editors w1)).
  { rewrite hide_eq. world_simpl. by rewrite Hf1. }
  destruct (renderTerminalCommand_creates c q2 s2 (hide w1) Hf2) as (Hf3 & He3 & Hms3 & _).
  rewrite Hinst2, Hms2, Hms1 in He3, Hms3.
  rewrite (getTextModel_stable ms_created_registered ms_created_live) in He3, Hms3.
  destruct (getTextModel_total
              (URI_from (js "terminal-inline-chat-" ++ numberToString (instanceId (_instance w)))
                        (js "terminal-inline-chat") c)
              (_modelService w)) as (m & ms & Hres).
  rewrite Hres in He1, He3, Hms1, Hms3. cbn [fst snd] in He1, He3, Hms1, Hms3.
  assert (Hin : editors (hide w1) !! fresh (dom (editors w)) =
                Some (ResponseEditor.dispose
                        {| re_hidden := false;
                           _editor := {| ce_model := None; ce_disposed := false |};
                           model := Some m; re_disposed := false |})).
  { by rewrite He2, lookup_alter_eq, He1, lookup_insert_eq. }
  assert (Hne : fresh (dom (editors w)) ≠ fresh (dom (editors (hide w1)))).
  { intros Heq. pose proof (fresh_editor_unused (hide w1)) as Hfresh.
    rewrite <- Heq in Hfresh. congruence. }
  eexists _, _, m, _, _. split_and!.
  - exact Hf1.
  - exact Hf3.
  - exact Hne.
  - rewrite He3, lookup_insert_ne by (by apply not_eq_sym). exact Hin.
  - reflexivity.
  - reflexivity.
  - rewrite He3. apply lookup_insert_eq.
  - reflexivity.
  - reflexivity.
  - by rewrite Hms3, Hms1.
Qed.

Lemma model_outlives_editor_witness :
  _responseEditor w_new = None ∧
  ∃ this1 this2,
    _responseEditor (renderTerminalCommand (js "ls") 7 None w_new) = Some this1 ∧
    _responseEditor
      (renderTerminalCommand (js "ls") 8 None
         (hide (renderTerminalCommand (js "ls") 7 None w_new))) = Some this2 ∧
    this1 ≠ this2 ∧
    _modelService
      (renderTerminalCommand (js "ls") 8 None
         (hide (renderTerminalCommand (js "ls") 7 None w_new))) =
    _modelService (renderTerminalCommand (js "ls") 7 None w_new).
Proof.
  split; [reflexivity|].
  destruct (model_outlives_editor (js "ls") 7 8 None None w_new eq_refl)
    as (this1 & this2 & m & r1 & r2 & E1 & E2 & E3 & _ & _ & _ & _ & _ & _ & E4).
  exists this1, this2. by split_and!.
Defined.
(** ** From rendering a command to accepting it *)

(** A call or event that is neither [hide], [acceptCommand],
    [renderTerminalCommand] nor a turn of the job queue leaves the field,
    the model service, the job queue and the terminal as they are, and of
    every response editor its editor. *)
Lemma quiet_step (o : Op) (w : World) :
  quiet o = true →
  _responseEditor (step o w) = _responseEditor w ∧
  _modelService (step o w) = _modelService w ∧
  jobs (step o w) = jobs w ∧
  _instance (step o w) = _instance w ∧
  ∀ a, _editor <$> editors (step o w) !! a = _editor <$> editors w !! a.
Proof.
  intros Hq.
  assert (Hon : ∀ w', _responseEditor (onResponseEditor ResponseEditor.hide w') =
                        _responseEditor w' ∧
                      _modelService (onResponseEditor ResponseEditor.hide w') =
                        _modelService w' ∧
                      jobs (onResponseEditor ResponseEditor.hide w') = jobs w' ∧
                      _instance (onResponseEditor ResponseEditor.hide w') = _instance w' ∧
                      ∀ a, _editor <$> editors (onResponseEditor ResponseEditor.hide w') !! a =
                           _editor <$> editors w' !! a).
  { intros w'. unfold onResponseEditor. destruct (_responseEditor w') as [this|] eqn:E; [|done].
    world_simpl. split_and!; try done. intros a.
    destruct (decide (this = a)) as [->|Hne].
    - rewrite lookup_alter_eq. by destruct (editors w' !! a).
    - by rewrite lookup_alter_ne. }
  destruct o as [c q s | text a request | | | | v | b | p | e | e | ]; cbn [step];
    try discriminate.
  - unfold renderMessage, andThen. world_simpl. apply Hon.
  - done.
  - done.
  - unfold setValue, andThen. destruct (negb (truthy v)); [|done].
    apply (Hon (with_inlineChatWidget (InlineChat.set_value (orEmpty v)) w)).
  - done.
  - unfold didFocusEditorText. destruct (editors w !! e) as [r|]; [|done].
    by destruct (re_disposed r).
  - unfold didBlurEditorText. destruct (editors w !! e) as [r|]; [|done].
    by destruct (re_disposed r).
Qed.

Lemma quiet_run (ops : list Op) (w : World) :
  forallb quiet ops = true →
  _responseEditor (run ops w) = _responseEditor w ∧
  _modelService (run ops w) = _modelService w ∧
  jobs (run ops w) = jobs w ∧
  _instance (run ops w) = _instance w ∧
  ∀ a, _editor <$> editors (run ops w) !! a = _editor <$> editors w !! a.
Proof.
  revert w. induction ops as [|o ops IH]; intros w Hops; [done|].
  cbn [forallb] in Hops. apply andb_prop in Hops as [Ho Hops].
  change (run (o :: ops) w) with (run ops (step o w)).
  destruct (IH (step o w) Hops) as (-> & -> & -> & -> & He).
  destruct (quiet_step o w Ho) as (-> & -> & -> & -> & He').
  split_and!; try done. intros a. by rewrite He, He'.
Qed.

(** So the text [acceptCommand] reads is the same after such calls. *)
Lemma quiet_run_value (ops : list Op) (w : World) :
  forallb quiet ops = true →
  responseEditorValue (run ops w) = responseEditorValue w.
Proof.
  intros Hops. destruct (quiet_run ops w Hops) as (Hf & Hms & _ & _ & He).
  unfold responseEditorValue. rewrite Hf, Hms.
  destruct (_responseEditor w) as [this|]; [|done]. cbn.
  specialize (He this).
  destruct (editors (run ops w) !! this) as [r'|], (editors w !! this) as [r|];
    try discriminate; [|done].
  cbn in He. injection He as He. cbn. unfold ResponseEditor.getValue. by rewrite He.
Qed.

(** What [acceptCommand] does, from the text it reads. *)
Lemma acceptCommand_value (b : bool) (w : World) (t : jsstring) :
  responseEditorValue w = Some t →
  (t ≠ [] →
     ranCommands (_instance (acceptCommand b w)) = ranCommands (_instance w) ++ [(t, b)] ∧
     _responseEditor (acceptCommand b w) = None ∧
     js "hide" ∈ classList (_container (acceptCommand b w))) ∧
  (t = [] → acceptCommand b w = w).
Proof.
  intros Hval. unfold acceptCommand. rewrite Hval. split.
  - intros Hne. apply truthy_Some in Hne. rewrite Hne. cbn [negb orEmpty default].
    unfold andThen. rewrite hide_eq. world_simpl.
    split_and!; [done | done | apply classList_add_elem].
  - by intros ->.
Qed.



(** X15: [acceptCommand] before the job of a new response editor has run
    does nothing, whatever the command: the editor has no text model yet, so
    its text is empty, the command written by [renderTerminalCommand]
    having been dropped; and this stays so through any calls that are
    neither [hide], [acceptCommand], [renderTerminalCommand] nor a turn of
    the job queue. *)
Theorem accept_before_job (w : World) (ops : list Op)
    (c : jsstring) (q : Z) (s : option jsstring) (b : bool) :
  _responseEditor w = None →
  forallb quiet ops = true →
  acceptCommand b (run ops (renderTerminalCommand c q s w)) =
  run ops (renderTerminalCommand c q s w).
Proof.
  intros E Hops.
  destruct (renderTerminalCommand_creates c q s w E) as (Hf & He & _).
  assert (Hval : responseEditorValue (run ops (renderTerminalCommand c q s w)) = Some []).
  { rewrite (quiet_run_value ops _ Hops). unfold responseEditorValue.
    rewrite Hf, He. cbn. by rewrite lookup_insert_eq. }
  by apply (acceptCommand_value b _ [] Hval).
Qed.

Lemma accept_before_job_witness :
  (_responseEditor w_new = None ∧
   forallb quiet [Reveal; RenderMessage (js "Try ls") 8 (js "request-1")] = true) ∧
  acceptCommand true
    (run [Reveal; RenderMessage (js "Try ls") 8 (js "request-1")]
       (renderTerminalCommand (js "ls") 7 (Some (js "bash")) w_new)) =
  run [Reveal; RenderMessage (js "Try ls") 8 (js "request-1")]
    (renderTerminalCommand (js "ls") 7 (Some (js "bash")) w_new).
Proof.
  split; [by split|].
  exact (accept_before_job w_new [Reveal; RenderMessage (js "Try ls") 8 (js "request-1")]
           (js "ls") 7 (Some (js "bash")) true eq_refl eq_refl).
Defined.



(** ** Disposed editors *)




